(** * fetch_parties.py: monthly State-of-the-Parties snapshots

    A shallow embedding of [fetch_parties.py] and the properties of its
    three functions, [get_parties_data], [save_parties_data] and [main].

    The script talks to three things outside itself: the HTTP service
    (through [requests.get]), the filesystem ([os.makedirs], [open],
    [json.dump]) and the console ([print]).  They are modelled by

    - an environment [env] of oracles that decides what each request
      answers and which filesystem operation fails,
    - a state [state] holding the chronological trace of everything the
      script did and the directories and files that exist,
    - a small state-and-exception monad [M] in which the three functions
      are written statement by statement.

    Library behaviour the script relies on ([datetime], [relativedelta],
    [strftime], [os.path.join], [json.dump]) is written out below next
    to the call it serves.  Python strings are taken as their UTF-8
    bytes; interpreter resource limits (recursion depth, memory) and the
    wall clock are outside the model. *)

From Stdlib Require Import ZArith String Ascii List Bool Lia DecimalString.
From stdpp Require Import gmap strings sorting relations.
Import ListNotations.

#[local] Set Warnings "-register-all".

Local Open Scope string_scope.
Local Open Scope list_scope.
Local Open Scope Z_scope.

(** ** Dates *)

Module Date.

(** A [datetime] whose time of day is midnight, which is all the script
    ever builds: [datetime(y, m, d)]. *)
Record datetime := mk { year : Z; month : Z; day : Z }.

Definition MINYEAR : Z := 1.
Definition MAXYEAR : Z := 9999.

(** [calendar.isleap] *)
Definition isleap (y : Z) : bool :=
  (y mod 4 =? 0) && (negb (y mod 100 =? 0) || (y mod 400 =? 0)).

(** [calendar.mdays] with the February correction of
    [calendar.monthrange(y, m)[1]]. *)
Definition days_in_month (y m : Z) : Z :=
  if m =? 2 then (if isleap y then 29 else 28)
  else if (m =? 4) || (m =? 6) || (m =? 9) || (m =? 11) then 30
  else 31.

(** The check the [datetime] constructor performs on its fields. *)
Definition valid (d : datetime) : bool :=
  (MINYEAR <=? year d) && (year d <=? MAXYEAR) &&
  (1 <=? month d) && (month d <=? 12) &&
  (1 <=? day d) && (day d <=? days_in_month (year d) (month d)).

(** [a <= b] on datetimes: lexicographic on the fields. *)
Definition leb (a b : datetime) : bool :=
  (year a <? year b) ||
  ((year a =? year b) &&
   ((month a <? month b) ||
    ((month a =? month b) && (day a <=? day b)))).

Definition ltb (a b : datetime) : bool := negb (leb b a).

(** Decimal digits, zero padded. *)
Definition digit (n : Z) : ascii := ascii_of_nat (48 + Z.to_nat (n mod 10)).

Definition zfill2 (n : Z) : string :=
  String (digit (n / 10)) (String (digit n) EmptyString).

Definition zfill4 (n : Z) : string :=
  String (digit (n / 1000)) (String (digit (n / 100)) (zfill2 n)).

(** [%Y] as the C library of Linux prints it: the year in decimal,
    which has four digits from the year 1000 on and fewer before. *)
Definition year_text (y : Z) : string :=
  if y <? 1000 then NilZero.string_of_int (Z.to_int y) else zfill4 y.

(** [date.strftime('%Y-%m-%d')]: the month and the day have two digits,
    the year as many as [%Y] gives it. *)
Definition strftime_Ymd (d : datetime) : string :=
  year_text (year d) +:+ "-" +:+ zfill2 (month d) +:+ "-" +:+ zfill2 (day d).

(** [date.strftime('%Y-%m-%d.json')] *)
Definition strftime_Ymd_json (d : datetime) : string :=
  strftime_Ymd d +:+ ".json".

(** Months since year 0, used only to count iterations. *)
Definition month_index (d : datetime) : Z := 12 * year d + month d.

(** The first of the month that lies [i] months after the first of the
    month of [d]: the calendar, written without reference to the code. *)
Definition nth_month (d : datetime) (i : Z) : datetime :=
  let k := month d - 1 + i in
  mk (year d + k / 12) (k mod 12 + 1) 1.

End Date.

Import Date.

(** ** Exceptions and the monad *)

Inductive exn :=
| OSError (msg : string)        (* raised by os.makedirs, open, write *)
| ValueError (msg : string)     (* raised by datetime.replace *)
| FuelExhausted.                (* the loop bound of the model ran out *)

Inductive result (A : Type) :=
| Ok (a : A)
| Raise (e : exn).
Arguments Ok {A} a.
Arguments Raise {A} e.

(** [dt + relativedelta(months=1)]: the month is bumped, a month past
    December rolls into the next year, the day is clipped to the length
    of the target month, and [dt.replace] rejects a year after
    [MAXYEAR]. *)
Definition add_one_month (dt : datetime) : result datetime :=
  let y := year dt in
  let m := month dt + 1 in
  let '(y, m) := if m >? 12 then (y + 1, m - 12) else (y, m) in
  let d := Z.min (days_in_month y m) (day dt) in
  if (MINYEAR <=? y) && (y <=? MAXYEAR)
  then Ok (mk y m d)
  else Raise (ValueError ("year " +:+ NilZero.string_of_int (Z.to_int y)
                          +:+ " is out of range")).

(** ** JSON values and [json.dump(data, f, indent=2, ensure_ascii=False)] *)

Module Json.

(** What [response.json()] builds.  [JNull] is Python's [None]; an
    object is the dict in insertion order; a float carries the text
    [float.__repr__] prints for it. *)
Inductive json :=
| JNull
| JBool (b : bool)
| JInt (n : Z)
| JFloat (repr : string)
| JStr (s : string)
| JArr (items : list json)
| JObj (members : list (string * json)).

Definition is_None (j : json) : bool :=
  match j with JNull => true | _ => false end.

Definition dquote : ascii := ascii_of_nat 34.
Definition backslash : ascii := ascii_of_nat 92.
Definition newline : ascii := ascii_of_nat 10.

Definition hex_digit (n : nat) : ascii :=
  if (n <? 10)%nat then ascii_of_nat (48 + n) else ascii_of_nat (87 + n).

(** One character under [ESCAPE_DCT]: the quote, the backslash and the
    control characters below 0x20 are escaped; everything else, every
    byte of a non-ASCII character included, is written as it is. *)
Definition escape_char (c : ascii) : string :=
  let n := nat_of_ascii c in
  let esc (x : ascii) := String backslash (String x EmptyString) in
  if (n =? 34)%nat then esc dquote
  else if (n =? 92)%nat then esc backslash
  else if (n =? 8)%nat then esc "b"%char
  else if (n =? 12)%nat then esc "f"%char
  else if (n =? 10)%nat then esc "n"%char
  else if (n =? 13)%nat then esc "r"%char
  else if (n =? 9)%nat then esc "t"%char
  else if (n <? 32)%nat then
    String backslash
      (String "u"%char (String "0"%char (String "0"%char
        (String (hex_digit (n / 16)) (String (hex_digit (n mod 16)) EmptyString)))))
  else String c EmptyString.

Fixpoint escape (s : string) : string :=
  match s with
  | EmptyString => EmptyString
  | String c s' => escape_char c +:+ escape s'
  end.

(** [encode_basestring]: the string between double quotes. *)
Definition encode_string (s : string) : string :=
  String dquote (escape s +:+ String dquote EmptyString).

(** ['\n' + ' ' * (2 * level)] *)
Fixpoint spaces (n : nat) : string :=
  match n with
  | O => EmptyString
  | S n' => String " "%char (spaces n')
  end.

Definition newline_indent (level : nat) : string :=
  String newline (spaces (2 * level)).

Definition str_int (n : Z) : string := NilZero.string_of_int (Z.to_int n).

(** [_iterencode] at nesting depth [level], with [indent=2], the item
    separator [","] and the key separator [": "]. *)
Fixpoint encode (level : nat) (j : json) : string :=
  match j with
  | JNull => "null"
  | JBool true => "true"
  | JBool false => "false"
  | JInt n => str_int n
  | JFloat r => r
  | JStr s => encode_string s
  | JArr [] => "[]"
  | JArr (x :: xs) =>
      "[" +:+ newline_indent (S level) +:+ encode (S level) x
      +:+ (fix items (l : list json) : string :=
             match l with
             | [] => EmptyString
             | y :: l' =>
                 "," +:+ newline_indent (S level) +:+ encode (S level) y
                 +:+ items l'
             end) xs
      +:+ newline_indent level +:+ "]"
  | JObj [] => "{}"
  | JObj ((k, v) :: ms) =>
      "{" +:+ newline_indent (S level) +:+ encode_string k +:+ ": "
      +:+ encode (S level) v
      +:+ (fix members (l : list (string * json)) : string :=
             match l with
             | [] => EmptyString
             | (k', v') :: l' =>
                 "," +:+ newline_indent (S level) +:+ encode_string k' +:+ ": "
                 +:+ encode (S level) v' +:+ members l'
             end) ms
      +:+ newline_indent level +:+ "}"
  end.

Definition dumps (j : json) : string := encode 0 j.

End Json.

Import Json.

(** ** The outside world *)

(** What [requests.get] followed, on status 200, by [response.json()]
    can come to.  A body that is not JSON makes [response.json()] raise
    [requests.exceptions.JSONDecodeError], a [RequestException]. *)
Inductive body :=
| Decoded (j : json)
| Undecodable (msg : string).

Inductive http_outcome :=
| Response (status_code : Z) (b : body)
| RequestException (msg : string).

Inductive fs_op :=
| OpMakedirs (path : string)
| OpOpen (path : string)
| OpWrite (path : string).

(** Everything the script does, in the order it does it. *)
Inductive event :=
| EGet (url : string) (timeout : Z)
| EPrint (line : string)
| EMakedirs (path : string)
| EOpen (path : string)
| EWrite (path : string) (content : string)
| ESleep (milliseconds : Z).

(** The environment answers the request issued at a given time (the
    number of events so far) and may fail any filesystem operation
    (disk full, permission denied, read-only medium, ...). *)
Record env := {
  http_get : nat -> string -> http_outcome;
  fs_fault : nat -> fs_op -> option string
}.

Record state := {
  trace : list event;
  dirs : gset string;
  files : gmap string string
}.

Definition now (st : state) : nat := length (trace st).

Definition log (e : event) (st : state) : state :=
  {| trace := trace st ++ [e]; dirs := dirs st; files := files st |}.

Definition M (A : Type) : Type := env -> state -> result A * state.

Definition ret {A} (a : A) : M A := fun _ st => (Ok a, st).

Definition bind {A B} (m : M A) (k : A -> M B) : M B :=
  fun e st =>
    match m e st with
    | (Ok a, st') => k a e st'
    | (Raise x, st') => (Raise x, st')
    end.

Definition raise {A} (x : exn) : M A := fun _ st => (Raise x, st).

(** [x ← m; k] and [m;; k] are stdpp's notations for [bind]. *)
#[global] Instance M_ret : MRet M := @ret.
#[global] Instance M_bind : MBind M := fun A B k m => bind m k.

(** [print(line)] *)
Definition print (line : string) : M unit :=
  fun _ st => (Ok tt, log (EPrint line) st).

(** [time.sleep(0.2)] *)
Definition sleep (milliseconds : Z) : M unit :=
  fun _ st => (Ok tt, log (ESleep milliseconds) st).

(** [requests.get(url, timeout=...)]: one request, one outcome. *)
Definition requests_get (url : string) (timeout : Z) : M http_outcome :=
  fun e st => (Ok (http_get e (now st) url), log (EGet url timeout) st).

(** [os.makedirs(path, exist_ok=True)] for a path of one component,
    which is what the script passes: an existing directory is left
    alone; the empty path and a path held by a regular file raise.
    Paths are keys of the maps below; the parents of a path of several
    components are not looked at. *)
Definition os_makedirs (path : string) : M unit :=
  fun e st =>
    let st' := log (EMakedirs path) st in
    match fs_fault e (now st) (OpMakedirs path) with
    | Some msg => (Raise (OSError msg), st')
    | None =>
        if decide (path = EmptyString)
        then (Raise (OSError "FileNotFoundError"), st')
        else if decide (is_Some (files st !! path))
        then (Raise (OSError "FileExistsError"), st')
        else (Ok tt, {| trace := trace st'; dirs := {[path]} ∪ dirs st;
                        files := files st |})
    end.

(** [open(path, 'w', encoding='utf-8')]: creates the file or truncates
    the one that is there; a directory cannot be opened for writing. *)
Definition open_w (path : string) : M unit :=
  fun e st =>
    let st' := log (EOpen path) st in
    match fs_fault e (now st) (OpOpen path) with
    | Some msg => (Raise (OSError msg), st')
    | None =>
        if decide (path ∈ dirs st)
        then (Raise (OSError "IsADirectoryError"), st')
        else (Ok tt, {| trace := trace st'; dirs := dirs st;
                        files := <[path := EmptyString]> (files st) |})
    end.

(** The text reaching the open file, through to the close at the end of
    the [with] block.  A fault leaves the file as [open] made it.  The
    text is a string of bytes, the UTF-8 encoding of what Python writes.
    A Python string with a lone surrogate has no such encoding:
    [json.dump] raises on it part of the way through, and these strings
    have no counterpart of that text. *)
Definition write (path content : string) : M unit :=
  fun e st =>
    let st' := log (EWrite path content) st in
    match fs_fault e (now st) (OpWrite path) with
    | Some msg => (Raise (OSError msg), st')
    | None => (Ok tt, {| trace := trace st'; dirs := dirs st;
                         files := <[path := content]> (files st) |})
    end.

(** [os.path.join(a, b)] on POSIX, for a relative [b]. *)
Definition ends_with_slash (s : string) : bool :=
  match last (list_ascii_of_string s) with
  | Some c => Ascii.eqb c "/"%char
  | None => false
  end.

Definition os_path_join (a b : string) : string :=
  if decide (a = EmptyString) then b
  else if ends_with_slash a then a +:+ b
  else a +:+ "/" +:+ b.

(** ** The script *)

Definition lift {A} (r : result A) : M A := fun _ st => (r, st).

Definition api_url (date_str : string) : string :=
  "https://members-api.parliament.uk/api/Parties/StateOfTheParties/1/"
  +:+ date_str.

(** The three messages of the script that carry a date or a count. *)
Definition no_data_line (date_str : string) (status_code : Z) : string :=
  "No data for " +:+ date_str +:+ " (Status: " +:+ str_int status_code +:+ ")".

Definition error_line (date_str msg : string) : string :=
  "Error fetching " +:+ date_str +:+ ": " +:+ msg.

Definition completed_line (success_count failure_count : Z) : string :=
  "Completed! Total successful: " +:+ str_int success_count
  +:+ ", Total failed: " +:+ str_int failure_count.

(** [get_parties_data(date)].  The [try] block covers the request and
    [response.json()]; [None] is returned as [JNull]. *)
Definition get_parties_data (date : datetime) : M json :=
  let date_str := strftime_Ymd date in
  let url := api_url date_str in
  response ← requests_get url 10;
  match response with
  | Response status_code b =>
      if status_code =? 200 then
        match b with
        | Decoded j => mret j
        | Undecodable msg => print (error_line date_str msg);; mret JNull
        end
      else
        print (no_data_line date_str status_code);; mret JNull
  | RequestException msg =>
      print (error_line date_str msg);; mret JNull
  end.

(** [save_parties_data(date, data, output_dir)] *)
Definition save_parties_data (date : datetime) (data : json)
    (output_dir : string) : M unit :=
  os_makedirs output_dir;;
  let filename := strftime_Ymd_json date in
  let filepath := os_path_join output_dir filename in
  open_w filepath;;
  write filepath (dumps data);;
  print ("Saved: " +:+ filename).

Definition default_output_dir : string := "parties_data".

(** The body of the [while] loop of [main]: the new cursor and the two
    counters after one pass. *)
Definition loop_body (current_date : datetime)
    (success_count failure_count : Z) : M (datetime * Z * Z) :=
  data ← get_parties_data current_date;
  '(success_count, failure_count) ←
    (if negb (is_None data)
     then save_parties_data current_date data default_output_dir;;
          mret (success_count + 1, failure_count)
     else mret (success_count, failure_count + 1));
  current_date ← lift (add_one_month current_date);
  sleep 200;;
  mret (current_date, success_count, failure_count).

(** [while current_date <= end_date: ...], unrolled at most [fuel]
    times; it returns the counters the loop leaves behind. *)
Fixpoint while_loop (fuel : nat) (current_date end_date : datetime)
    (success_count failure_count : Z) : M (Z * Z) :=
  if leb current_date end_date then
    match fuel with
    | O => raise FuelExhausted
    | S fuel' =>
        '(current_date, success_count, failure_count) ←
          loop_body current_date success_count failure_count;
        while_loop fuel' current_date end_date success_count failure_count
    end
  else mret (success_count, failure_count).

(** The count printed in the header. *)
Definition total_months (start_date end_date : datetime) : Z :=
  (year end_date - year start_date) * 12
  + (month end_date - month start_date) + 1.

Fixpoint dashes (n : nat) : string :=
  match n with
  | O => EmptyString
  | S n' => String "-"%char (dashes n')
  end.

(** Enough unrollings for the loop from [start_date] to [end_date]
    (see [while_loop_fuel]). *)
Definition loop_bound (start_date end_date : datetime) : nat :=
  Z.to_nat (month_index end_date - month_index start_date + 1).

(** The body of [main] for given [start_date] and [end_date].  The
    unused [today = datetime.now()] has no effect. *)
Definition run (start_date end_date : datetime) : M unit :=
  print ("Fetching State of the Parties data from "
         +:+ strftime_Ymd start_date +:+ " to " +:+ strftime_Ymd end_date);;
  print ("Total months to process: "
         +:+ str_int (total_months start_date end_date));;
  print (dashes 60);;
  '(success_count, failure_count) ←
    while_loop (loop_bound start_date end_date) start_date end_date 0 0;
  print (dashes 60);;
  print (completed_line success_count failure_count).

Definition start_date : datetime := mk 1980 1 1.
Definition end_date : datetime := mk 1990 1 1.

Definition main : M unit := run start_date end_date.

(** ** Reading a trace *)

Definition console (t : list event) : list string :=
  omap (fun e => match e with EPrint l => Some l | _ => None end) t.

Definition fetched (t : list event) : list (string * Z) :=
  omap (fun e => match e with EGet u to => Some (u, to) | _ => None end) t.

Definition sleeps (t : list event) : list Z :=
  omap (fun e => match e with ESleep ms => Some ms | _ => None end) t.

Definition is_fs_event (e : event) : bool :=
  match e with
  | EMakedirs _ | EOpen _ | EWrite _ _ => true
  | _ => false
  end.

Definition no_fs_events (evs : list event) : Prop :=
  Forall (fun ev => is_fs_event ev = false) evs.

(** [ext st evs]: the state [st] after the events [evs], none of which
    touched the filesystem. *)
Definition ext (st : state) (evs : list event) : state :=
  {| trace := trace st ++ evs; dirs := dirs st; files := files st |}.

(** What [run] prints before the loop and after it. *)
Definition header (start_date end_date : datetime) : list event :=
  [EPrint ("Fetching State of the Parties data from "
           +:+ strftime_Ymd start_date +:+ " to " +:+ strftime_Ymd end_date);
   EPrint ("Total months to process: "
           +:+ str_int (total_months start_date end_date));
   EPrint (dashes 60)].

Definition footer (success_count failure_count : Z) : list event :=
  [EPrint (dashes 60); EPrint (completed_line success_count failure_count)].

(** ** One fetch, one save *)

(** The request the script sends for a date, as an event and as the
    pair [fetched] extracts from it. *)
Definition get_event (date : datetime) : event :=
  EGet (api_url (strftime_Ymd date)) 10.

Definition req (date : datetime) : string * Z :=
  (api_url (strftime_Ymd date), 10).

(** The value and the console line of one fetch, by outcome. *)
Definition fetch_value (o : http_outcome) : json :=
  match o with
  | Response status_code (Decoded j) =>
      if status_code =? 200 then j else JNull
  | _ => JNull
  end.

Definition fetch_report (date : datetime) (o : http_outcome) : list event :=
  match o with
  | Response status_code b =>
      if status_code =? 200 then
        match b with
        | Decoded _ => []
        | Undecodable msg => [EPrint (error_line (strftime_Ymd date) msg)]
        end
      else [EPrint (no_data_line (strftime_Ymd date) status_code)]
  | RequestException msg => [EPrint (error_line (strftime_Ymd date) msg)]
  end.

(** A service from which no fetch returns a snapshot. *)
Definition nothing_fetched (e : env) : Prop :=
  forall t url, is_None (fetch_value (http_get e t url)) = true.

Definition filepath_of (output_dir : string) (date : datetime) : string :=
  os_path_join output_dir (strftime_Ymd_json date).

Definition saved_line (date : datetime) : string :=
  "Saved: " +:+ strftime_Ymd_json date.

(** The state a successful save leaves behind. *)
Definition saved (st : state) (output_dir : string) (date : datetime)
    (data : json) : state :=
  let p := filepath_of output_dir date in
  {| trace := trace st ++ [EMakedirs output_dir; EOpen p;
                           EWrite p (dumps data); EPrint (saved_line date)];
     dirs := {[output_dir]} ∪ dirs st;
     files := <[p := dumps data]> (files st) |}.

(** When the three filesystem operations of a save go through: no fault
    is injected at their times, the directory path is not empty and not
    a regular file, and the file path is not a directory. *)
Definition save_succeeds (e : env) (st : state) (output_dir : string)
    (date : datetime) : Prop :=
  let p := filepath_of output_dir date in
  fs_fault e (now st) (OpMakedirs output_dir) = None /\
  fs_fault e (S (now st)) (OpOpen p) = None /\
  fs_fault e (S (S (now st))) (OpWrite p) = None /\
  output_dir <> EmptyString /\
  files st !! output_dir = None /\
  p ∉ {[output_dir]} ∪ dirs st.

(** An environment without filesystem faults, and a filesystem in which
    nothing stands in the way of the script's directory and files. *)
Definition no_faults (e : env) : Prop :=
  forall t op, fs_fault e t op = None.

Definition fs_clean (st : state) (output_dir : string) : Prop :=
  output_dir <> EmptyString /\
  files st !! output_dir = None /\
  forall d, filepath_of output_dir d ∉ dirs st.

(** ** The months of the loop *)

(** A cursor the loop can hold: the first of a month. *)
Definition first_of_month (d : datetime) : Prop :=
  MINYEAR <= year d <= MAXYEAR /\ 1 <= month d <= 12 /\ day d = 1.

(** The firsts of the [n] months from the month of [d] on. *)
Definition month_seq (d : datetime) (n : nat) : list datetime :=
  map (fun i => nth_month d (Z.of_nat i)) (seq 0 n).

(** The months [main] is configured to visit, and what it means for a
    list of dates to advance one calendar month at a time. *)
Definition configured_months : list datetime := month_seq start_date 121.

Fixpoint consecutive (l : list datetime) : Prop :=
  match l with
  | d :: (d' :: _) as tl => add_one_month d = Ok d' /\ consecutive tl
  | _ => True
  end.

(** The first of the calendar month after that of [d], and the last
    month a [datetime] can hold. *)
Definition next_first (d : datetime) : datetime :=
  if month d =? 12 then mk (year d + 1) 1 1 else mk (year d) (month d + 1) 1.

Definition last_month : datetime := mk 9999 12 1.

(** ** The loop as a transition system *)

(** Configurations are (cursor, successes, failures, state); there is
    one transition per completed pass of the loop body. *)
Definition config : Type := datetime * Z * Z * state.

Inductive loop_step (e : env) (end_date : datetime) : config -> config -> Prop :=
| loop_step_pass cur s f st next s' f' st' :
    leb cur end_date = true ->
    loop_body cur s f e st = (Ok (next, s', f'), st') ->
    loop_step e end_date (cur, s, f, st) (next, s', f', st').

(** The loop resumed from a configuration. *)
Definition while_loop_at (fuel : nat) (end_date : datetime) (c : config) :
    M (Z * Z) :=
  let '(cur, s, f, st) := c in
  fun e _ => while_loop fuel cur end_date s f e st.

(** ** Machines and services of the examples *)

Definition st0 : state := {| trace := []; dirs := ∅; files := ∅ |}.

Definition no_fault : nat -> fs_op -> option string := fun _ _ => None.

Definition always (o : http_outcome) : env :=
  {| http_get := fun _ _ => o; fs_fault := no_fault |}.

(** A service that has nothing for any date, and one that cannot be
    reached. *)
Definition env_404 : env := always (Response 404 (Decoded JNull)).

Definition env_down : env := always (RequestException "timed out").

Definition sample_snapshot : json :=
  JObj [("party", JStr "Sinn Féin"); ("seats", JArr [JInt 7; JInt 0])].



(** A disk that fills up: every write fails. *)
Definition env_disk_full : env :=
  {| http_get := fun _ _ => Response 200 (Decoded sample_snapshot);
     fs_fault := fun _ op =>
       match op with
       | OpWrite _ => Some "No space left on device"
       | _ => None
       end |}.

(** ** Vocabulary of the further properties *)

(** The writes of a trace: path and text, in order. *)
Definition writes (t : list event) : list (string * string) :=
  omap (fun e => match e with EWrite p c => Some (p, c) | _ => None end) t.

(** [frame paths st st']: from [st] to [st'] no directory went away and
    none appeared but the output directory, no file went away, and the
    files outside [paths] are as they were. *)
Definition frame (paths : list string) (st st' : state) : Prop :=
  (forall d, d ∈ dirs st -> d ∈ dirs st') /\
  (forall d, d ∈ dirs st' -> d = default_output_dir \/ d ∈ dirs st) /\
  (forall q, q ∉ paths -> files st' !! q = files st !! q) /\
  (forall q, is_Some (files st !! q) -> is_Some (files st' !! q)).

(** Pacing: [paced ready t] holds when every request of [t] comes after
    a sleep of at least 200 ms that no other request has used up;
    [ready] says whether such a sleep is at hand when [t] begins. *)
Fixpoint paced (ready : bool) (t : list event) : bool :=
  match t with
  | [] => true
  | EGet _ _ :: t' => ready && paced false t'
  | ESleep ms :: t' => paced (ready || (200 <=? ms)) t'
  | _ :: t' => paced ready t'
  end.

Fixpoint ready_after (ready : bool) (t : list event) : bool :=
  match t with
  | [] => ready
  | EGet _ _ :: t' => ready_after false t'
  | ESleep ms :: t' => ready_after (ready || (200 <=? ms)) t'
  | _ :: t' => ready_after ready t'
  end.

(** A service whose every answer is 200 with the body [null]. *)
Definition env_null : env := always (Response 200 (Decoded JNull)).

(** A service that always has the sample snapshot. *)
Definition env_sample : env := always (Response 200 (Decoded sample_snapshot)).

(** A disk holding one file of the user's. *)
Definition st_notes : state :=
  {| trace := []; dirs := ∅; files := {[ "notes.txt" := "keep" ]} |}.

(** ** The formats the specification names

    These definitions follow the specification's words, not the code:
    the statements compare what the script produces with them. *)



(** An integer in decimal, as [str] prints it. *)
Definition decimal (n : Z) : string := NilZero.string_of_int (Z.to_int n).

(** JSON text, formatted: a string between double quotes with the
    quote, the backslash and the control characters escaped and every
    other character, those outside ASCII included, as it is; the items
    of a non-empty array or object one to a line, two more blanks deep
    than the bracket that holds them, with a comma after each but the
    last. *)
Definition short_escapes : list (nat * string) :=
  [(34%nat, String (ascii_of_nat 92) (String (ascii_of_nat 34) EmptyString));
   (92%nat, "\\"); (8%nat, "\b"); (9%nat, "\t"); (10%nat, "\n");
   (12%nat, "\f"); (13%nat, "\r")].

Definition hex_char (n : nat) : ascii :=
  match String.get n "0123456789abcdef" with
  | Some c => c
  | None => "0"%char
  end.

Definition json_char (c : ascii) : string :=
  let n := nat_of_ascii c in
  match List.find (fun p => Nat.eqb (fst p) n) short_escapes with
  | Some p => snd p
  | None =>
      if (n <? 32)%nat
      then "\u00" +:+ String (hex_char (n / 16)) (String (hex_char (n mod 16)) EmptyString)
      else String c EmptyString
  end.

Definition json_string (s : string) : string :=
  String (ascii_of_nat 34)
    (String.concat EmptyString (map json_char (list_ascii_of_string s))
     +:+ String (ascii_of_nat 34) EmptyString).

Definition line_break (depth : nat) : string :=
  String (ascii_of_nat 10) (string_of_list_ascii (repeat " "%char (2 * depth))).

Fixpoint json_text (depth : nat) (j : json) : string :=
  match j with
  | JNull => "null"
  | JBool b => if b then "true" else "false"
  | JInt n => decimal n
  | JFloat r => r
  | JStr s => json_string s
  | JArr [] => "[]"
  | JArr items =>
      "[" +:+ line_break (S depth)
      +:+ String.concat ("," +:+ line_break (S depth))
            (map (json_text (S depth)) items)
      +:+ line_break depth +:+ "]"
  | JObj [] => "{}"
  | JObj members =>
      "{" +:+ line_break (S depth)
      +:+ String.concat ("," +:+ line_break (S depth))
            (map (fun kv => json_string (fst kv) +:+ ": "
                            +:+ json_text (S depth) (snd kv)) members)
      +:+ line_break depth +:+ "}"
  end.

(** Well-formed UTF-8: the bytes of a text every character of which is
    a Unicode scalar value, so of a Python string without a lone
    surrogate. *)
Definition continuation (b : nat) : bool := (128 <=? b)%nat && (b <=? 191)%nat.

Fixpoint utf8 (l : list nat) : bool :=
  match l with
  | [] => true
  | b0 :: l1 =>
      if (b0 <? 128)%nat then utf8 l1 else
      match l1 with
      | [] => false
      | b1 :: l2 =>
          if (194 <=? b0)%nat && (b0 <=? 223)%nat
          then continuation b1 && utf8 l2 else
          match l2 with
          | [] => false
          | b2 :: l3 =>
              if (224 <=? b0)%nat && (b0 <=? 239)%nat then
                (if (b0 =? 224)%nat then (160 <=? b1)%nat && (b1 <=? 191)%nat
                 else if (b0 =? 237)%nat then (128 <=? b1)%nat && (b1 <=? 159)%nat
                 else continuation b1)
                && continuation b2 && utf8 l3
              else
              match l3 with
              | [] => false
              | b3 :: l4 =>
                  (240 <=? b0)%nat && (b0 <=? 244)%nat
                  && (if (b0 =? 240)%nat then (144 <=? b1)%nat && (b1 <=? 191)%nat
                      else if (b0 =? 244)%nat then (128 <=? b1)%nat && (b1 <=? 143)%nat
                      else continuation b1)
                  && continuation b2 && continuation b3 && utf8 l4
              end
          end
      end
  end.






(** * Properties *)

(** ** Calendar arithmetic *)

Lemma leb_month_index (a b : datetime) :
  1 <= month a <= 12 -> 1 <= month b <= 12 ->
  leb a b = true -> month_index a <= month_index b.
Proof.
  unfold leb, month_index. intros Ha Hb H.
  repeat (apply orb_prop in H as [H|H] || apply andb_prop in H as [H ?]); lia.
Qed.

Lemma leb_false_month_index (a b : datetime) :
  1 <= month a <= 12 -> 1 <= month b <= 12 ->
  month_index b < month_index a -> leb a b = false.
Proof.
  intros Ha Hb H. destruct (leb a b) eqn:E; [|done].
  apply leb_month_index in E; lia.
Qed.

Lemma leb_first_of_month (a b : datetime) :
  1 <= month a <= 12 -> 1 <= month b <= 12 -> day a = 1 -> 1 <= day b ->
  leb a b = true <-> month_index a <= month_index b.
Proof.
  intros Ha Hb Hda Hdb. split; [by apply leb_month_index|].
  unfold leb, month_index. intros H.
  destruct (Z.ltb_spec (year a) (year b)); [done|].
  destruct (Z.eqb_spec (year a) (year b)); [|lia].
  destruct (Z.ltb_spec (month a) (month b)); [done|].
  destruct (Z.eqb_spec (month a) (month b)); [|lia].
  destruct (Z.leb_spec (day a) (day b)); [done|lia].
Qed.

Lemma days_in_month_ge_1 (y m : Z) : 1 <= days_in_month y m.
Proof. unfold days_in_month. repeat case_match; lia. Qed.

(** What [add_one_month] returns when it returns. *)
Lemma add_one_month_Ok (dt dt' : datetime) :
  1 <= month dt <= 12 ->
  add_one_month dt = Ok dt' ->
  month_index dt' = month_index dt + 1 /\ 1 <= month dt' <= 12 /\
  (day dt = 1 -> dt' = nth_month dt 1) /\
  MINYEAR <= year dt' <= MAXYEAR.
Proof.
  unfold add_one_month, month_index, nth_month. intros Hm H.
  destruct (Z.gtb_spec (month dt + 1) 12) as [Hgt|Hle];
    case_match; simplify_eq; cbn [year month day];
    match goal with
    | Hy : (_ && _) = true |- _ =>
        apply andb_prop in Hy as [Hy1%Z.leb_le Hy2%Z.leb_le]
    end.
  - assert (month dt = 12) as -> by lia.
    split; [lia|]. split; [lia|]. split; [|lia]. intros ->.
    change ((12 - 1 + 1) / 12) with 1. change ((12 - 1 + 1) mod 12 + 1) with 1.
    rewrite Z.min_r by apply days_in_month_ge_1.
    f_equal; lia.
  - split; [lia|]. split; [lia|]. split; [|lia]. intros ->.
    rewrite Z.min_r by apply days_in_month_ge_1.
    replace (month dt - 1 + 1) with (month dt) by lia.
    rewrite Z.div_small, Z.mod_small by lia. f_equal; lia.
Qed.

(** It raises only at the last month the type can hold. *)
Lemma add_one_month_Raise (dt : datetime) (x : exn) :
  1 <= month dt <= 12 -> MINYEAR <= year dt <= MAXYEAR ->
  add_one_month dt = Raise x ->
  year dt = MAXYEAR /\ month dt = 12 /\ exists msg, x = ValueError msg.
Proof.
  unfold add_one_month, MINYEAR, MAXYEAR. intros Hm Hy H.
  destruct (Z.gtb_spec (month dt + 1) 12) as [Hgt|Hle];
    case_match; simplify_eq.
  - apply andb_false_iff in H0 as [H0|H0]; [lia|].
    apply Z.leb_gt in H0. split; [lia|]. split; [lia|]. eauto.
  - apply andb_false_iff in H0 as [H0|H0]; lia.
Qed.

Lemma add_one_month_not_exhausted (dt : datetime) :
  add_one_month dt <> Raise FuelExhausted.
Proof. unfold add_one_month. repeat case_match; congruence. Qed.

Lemma nth_month_0 (d : datetime) :
  1 <= month d <= 12 -> day d = 1 -> nth_month d 0 = d.
Proof.
  destruct d as [y m dd]. unfold nth_month. cbn [year month day].
  intros Hm ->. replace (m - 1 + 0) with (m - 1) by lia.
  rewrite Z.div_small, Z.mod_small by lia. f_equal; lia.
Qed.

Lemma nth_month_month (d : datetime) (i : Z) : 1 <= month (nth_month d i) <= 12.
Proof.
  unfold nth_month. cbn [month].
  pose proof (Z.mod_pos_bound (month d - 1 + i) 12). lia.
Qed.

Lemma nth_month_index (d : datetime) (i : Z) :
  month_index (nth_month d i) = month_index d + i.
Proof.
  unfold nth_month, month_index. cbn [year month].
  pose proof (Z.div_mod (month d - 1 + i) 12). lia.
Qed.

Lemma nth_month_nth_month (d : datetime) (i j : Z) :
  nth_month (nth_month d i) j = nth_month d (i + j).
Proof.
  pose proof (nth_month_index (nth_month d i) j) as H1.
  pose proof (nth_month_index d (i + j)) as H2.
  rewrite (nth_month_index d i) in H1.
  pose proof (nth_month_month (nth_month d i) j) as M1.
  pose proof (nth_month_month d (i + j)) as M2.
  destruct (nth_month (nth_month d i) j) as [y1 m1 d1] eqn:E1.
  destruct (nth_month d (i + j)) as [y2 m2 d2] eqn:E2.
  assert (d1 = 1) as -> by (unfold nth_month in E1; congruence).
  assert (d2 = 1) as -> by (unfold nth_month in E2; congruence).
  unfold month_index in H1, H2. cbn [year month] in *.
  assert (y1 = y2) by lia. assert (m1 = m2) by lia. congruence.
Qed.

(** ** The monad *)

Section Monad.
Context {A B : Type}.
Implicit Types (m : M A) (k : A -> M B).

Lemma bind_Ok m k e st a st' :
  m e st = (Ok a, st') -> (m ≫= k) e st = k a e st'.
Proof. unfold mbind, M_bind, bind. by intros ->. Qed.

Lemma bind_Raise m k e st x st' :
  m e st = (Raise x, st') -> (m ≫= k) e st = (Raise x, st').
Proof. unfold mbind, M_bind, bind. by intros ->. Qed.

Lemma bind_inv m k e st r st2 :
  (m ≫= k) e st = (r, st2) ->
  (exists a st1, m e st = (Ok a, st1) /\ k a e st1 = (r, st2)) \/
  (exists x, m e st = (Raise x, st2) /\ r = Raise x).
Proof.
  unfold mbind, M_bind, bind. destruct (m e st) as [[a|x] st1]; intros H.
  - left. eauto.
  - right. exists x. by simplify_eq.
Qed.
End Monad.

Lemma log_ext (ev : event) (st : state) : log ev st = ext st [ev].
Proof. done. Qed.

Lemma ext_ext (st : state) (a b : list event) :
  ext (ext st a) b = ext st (a ++ b).
Proof. unfold ext. cbn. by rewrite app_assoc. Qed.

Lemma ext_nil (st : state) : ext st [] = st.
Proof. destruct st. unfold ext. cbn. by rewrite app_nil_r. Qed.

(** ** [get_parties_data] *)

Lemma get_parties_data_eq (date : datetime) (e : env) (st : state) :
  let o := http_get e (now st) (api_url (strftime_Ymd date)) in
  get_parties_data date e st =
  (Ok (fetch_value o), ext st (get_event date :: fetch_report date o)).
Proof.
  cbv zeta. unfold get_parties_data.
  erewrite bind_Ok by reflexivity. rewrite log_ext.
  destruct (http_get e (now st) _) as [sc [j|msg]|msg]; cbn [fetch_value fetch_report].
  - destruct (sc =? 200); [done|].
    erewrite bind_Ok by reflexivity. by rewrite log_ext, ext_ext.
  - destruct (sc =? 200);
      erewrite bind_Ok by reflexivity; by rewrite log_ext, ext_ext.
  - erewrite bind_Ok by reflexivity. by rewrite log_ext, ext_ext.
Qed.

(** ** [save_parties_data] *)

(** ** [save_parties_data] *)

Lemma save_parties_data_makedirs_raise date data output_dir e st x st1 :
  os_makedirs output_dir e st = (Raise x, st1) ->
  save_parties_data date data output_dir e st = (Raise x, st1).
Proof. intros H. unfold save_parties_data. by erewrite bind_Raise. Qed.

Lemma save_parties_data_open_raise date data output_dir e st x st1 st2 :
  os_makedirs output_dir e st = (Ok tt, st1) ->
  open_w (filepath_of output_dir date) e st1 = (Raise x, st2) ->
  save_parties_data date data output_dir e st = (Raise x, st2).
Proof.
  intros H1 H2. unfold save_parties_data.
  erewrite bind_Ok by eassumption. by erewrite bind_Raise.
Qed.

Lemma save_parties_data_write_raise date data output_dir e st x st1 st2 st3 :
  os_makedirs output_dir e st = (Ok tt, st1) ->
  open_w (filepath_of output_dir date) e st1 = (Ok tt, st2) ->
  write (filepath_of output_dir date) (dumps data) e st2 = (Raise x, st3) ->
  save_parties_data date data output_dir e st = (Raise x, st3).
Proof.
  intros H1 H2 H3. unfold save_parties_data.
  erewrite bind_Ok by eassumption. erewrite bind_Ok by eassumption.
  by erewrite bind_Raise.
Qed.

Lemma save_parties_data_Ok date data output_dir e st :
  save_succeeds e st output_dir date ->
  save_parties_data date data output_dir e st
  = (Ok tt, saved st output_dir date data).
Proof.
  intros (F1 & F2 & F3 & Hne & Hfile & Hdir).
  unfold save_parties_data, saved. fold (filepath_of output_dir date).
  set (p := filepath_of output_dir date) in *.
  erewrite bind_Ok; cycle 1.
  { unfold os_makedirs. rewrite F1.
    destruct (decide (output_dir = EmptyString)); [done|].
    destruct (decide (is_Some (files st !! output_dir))) as [[? Hs]|_];
      [congruence|reflexivity]. }
  erewrite bind_Ok; cycle 1.
  { unfold open_w, now, log. cbn [trace dirs files].
    rewrite length_app, Nat.add_1_r. unfold now in F2. rewrite F2.
    destruct (decide (p ∈ {[output_dir]} ∪ dirs st)); [done|reflexivity]. }
  erewrite bind_Ok; cycle 1.
  { unfold write, now, log. cbn [trace dirs files].
    rewrite !length_app, !Nat.add_1_r. unfold now in F3. rewrite F3.
    reflexivity. }
  unfold print, log. cbn [trace dirs files].
  rewrite insert_insert_eq. repeat rewrite <- app_assoc. reflexivity.
Qed.

(** Whatever happens, a save leaves a prefix of its four events, all of
    them when it returns, and otherwise raises an [OSError]. *)
Lemma save_parties_data_trace date data output_dir e st r st' :
  save_parties_data date data output_dir e st = (r, st') ->
  let p := filepath_of output_dir date in
  exists n, (1 <= n <= 4)%nat /\
    trace st' = trace st ++ take n [EMakedirs output_dir; EOpen p;
                                    EWrite p (dumps data);
                                    EPrint (saved_line date)] /\
    (n = 4%nat -> r = Ok tt) /\
    (n <> 4%nat -> exists msg, r = Raise (OSError msg)).
Proof.
  unfold save_parties_data. fold (filepath_of output_dir date).
  set (p := filepath_of output_dir date). intros H. cbv zeta.
  apply bind_inv in H as [(u1 & st1 & H1 & H)|(x1 & H1 & ->)].
  - assert (trace st1 = trace st ++ [EMakedirs output_dir]) as T1.
    { unfold os_makedirs in H1. repeat case_match; by simplify_eq. }
    apply bind_inv in H as [(u2 & st2 & H2 & H)|(x2 & H2 & ->)].
    + assert (trace st2 = trace st1 ++ [EOpen p]) as T2.
      { unfold open_w in H2. repeat case_match; by simplify_eq. }
      apply bind_inv in H as [(u3 & st3 & H3 & H)|(x3 & H3 & ->)].
      * assert (trace st3 = trace st2 ++ [EWrite p (dumps data)]) as T3.
        { unfold write in H3. repeat case_match; by simplify_eq. }
        unfold print in H. simplify_eq. exists 4%nat.
        split; [lia|]. split; [|split; [done|done]].
        cbn [log trace take]. rewrite T3, T2, T1.
        by repeat rewrite <- app_assoc.
      * exists 3%nat. split; [lia|]. split; [|split; [done|]].
        -- unfold write in H3. repeat case_match; simplify_eq.
           cbn [log trace take]. rewrite T2, T1. by repeat rewrite <- app_assoc.
        -- intros _. unfold write in H3. repeat case_match; simplify_eq; eauto.
    + exists 2%nat. split; [lia|]. split; [|split; [done|]].
      * unfold open_w in H2. repeat case_match; simplify_eq;
          cbn [log trace take]; rewrite T1; by repeat rewrite <- app_assoc.
      * intros _. unfold open_w in H2. repeat case_match; simplify_eq; eauto.
  - exists 1%nat. split; [lia|]. split; [|split; [done|]].
    + unfold os_makedirs in H1. repeat case_match; by simplify_eq.
    + intros _. unfold os_makedirs in H1. repeat case_match; simplify_eq; eauto.
Qed.

(** ** Reading traces *)

Lemma fetched_app (a b : list event) : fetched (a ++ b) = fetched a ++ fetched b.
Proof. apply omap_app. Qed.

Lemma sleeps_app (a b : list event) : sleeps (a ++ b) = sleeps a ++ sleeps b.
Proof. apply omap_app. Qed.

Lemma console_app (a b : list event) : console (a ++ b) = console a ++ console b.
Proof. apply omap_app. Qed.

Lemma fetch_report_quiet (date : datetime) (o : http_outcome) :
  fetched (fetch_report date o) = [] /\ sleeps (fetch_report date o) = [].
Proof. unfold fetch_report. by repeat case_match. Qed.

Lemma take_save_events_quiet (n : nat) (a b c d : string) (data : string) :
  let evs := take n [EMakedirs a; EOpen b; EWrite c data; EPrint d] in
  fetched evs = [] /\ sleeps evs = [].
Proof. by do 5 (destruct n as [|n]; [done|]). Qed.

(** ** One pass of the loop *)

Section LoopBody.
Variables (cur : datetime) (s f : Z) (e : env) (st : state).

Local Abbreviation o := (http_get e (now st) (api_url (strftime_Ymd cur))).
Local Abbreviation st1 := (ext st (get_event cur :: fetch_report cur o)).

Lemma loop_body_eq :
  loop_body cur s f e st =
  ('(s', f') ← (if negb (is_None (fetch_value o))
                then save_parties_data cur (fetch_value o) default_output_dir;;
                     mret (s + 1, f)
                else mret (s, f + 1));
   next ← lift (add_one_month cur);
   sleep 200;;
   mret (next, s', f')) e st1.
Proof.
  unfold loop_body. erewrite bind_Ok by apply get_parties_data_eq. done.
Qed.

(** The fetch came back with nothing: the failure counter moves. *)
Lemma loop_body_absent next :
  is_None (fetch_value o) = true ->
  add_one_month cur = Ok next ->
  loop_body cur s f e st
  = (Ok (next, s, f + 1),
     ext st (get_event cur :: fetch_report cur o ++ [ESleep 200])).
Proof.
  intros Hn Ha. rewrite loop_body_eq, Hn. cbn [negb].
  erewrite bind_Ok by reflexivity. cbn beta iota.
  erewrite bind_Ok by (unfold lift; rewrite Ha; reflexivity).
  erewrite bind_Ok by reflexivity.
  unfold mret, M_ret, ret. by rewrite log_ext, ext_ext.
Qed.

(** The fetch came back with a snapshot and the save went through:
    the success counter moves. *)
Lemma loop_body_saved next :
  is_None (fetch_value o) = false ->
  save_succeeds e st1 default_output_dir cur ->
  add_one_month cur = Ok next ->
  loop_body cur s f e st
  = (Ok (next, s + 1, f),
     ext (saved st1 default_output_dir cur (fetch_value o)) [ESleep 200]).
Proof.
  intros Hn Hs Ha. rewrite loop_body_eq, Hn. cbn [negb].
  erewrite bind_Ok; cycle 1.
  { erewrite bind_Ok by (by apply save_parties_data_Ok). reflexivity. }
  cbn beta iota.
  erewrite bind_Ok by (unfold lift; rewrite Ha; reflexivity).
  erewrite bind_Ok by reflexivity.
  unfold mret, M_ret, ret. by rewrite log_ext.
Qed.

(** The save raised: so does the pass, at once. *)
Lemma loop_body_save_raise x st2 :
  is_None (fetch_value o) = false ->
  save_parties_data cur (fetch_value o) default_output_dir e st1
  = (Raise x, st2) ->
  loop_body cur s f e st = (Raise x, st2).
Proof.
  intros Hn Hs. rewrite loop_body_eq, Hn. cbn [negb].
  erewrite bind_Raise; [done|]. by erewrite bind_Raise.
Qed.

(** Every pass, whatever the outcome. *)
Lemma loop_body_inv r st' :
  loop_body cur s f e st = (r, st') ->
  exists evs,
    trace st' = trace st ++ get_event cur :: evs /\ fetched evs = [] /\
    match r with
    | Ok (next, s', f') =>
        add_one_month cur = Ok next /\ sleeps evs = [200] /\
        ((is_None (fetch_value o) = false /\ s' = s + 1 /\ f' = f) \/
         (is_None (fetch_value o) = true /\ s' = s /\ f' = f + 1 /\
          dirs st' = dirs st /\ files st' = files st))
    | Raise x =>
        sleeps evs = [] /\
        ((is_None (fetch_value o) = false /\ exists msg, x = OSError msg) \/
         add_one_month cur = Raise x)
    end.
Proof.
  rewrite loop_body_eq. intros H.
  destruct (fetch_report_quiet cur o) as [Qf Qs].
  apply bind_inv in H as [([s1 f1] & st2 & H1 & H)|(x & H1 & ->)].
  - assert (exists evs1, trace st2 = trace st ++ get_event cur :: evs1 /\
             fetched evs1 = [] /\ sleeps evs1 = [] /\
             ((is_None (fetch_value o) = false /\ s1 = s + 1 /\ f1 = f) \/
              (is_None (fetch_value o) = true /\ s1 = s /\ f1 = f + 1 /\
               dirs st2 = dirs st /\ files st2 = files st)))
      as (evs1 & T1 & F1 & S1 & C1).
    { destruct (is_None (fetch_value o)) eqn:Hn; cbn [negb] in H1.
      - unfold mret, M_ret, ret in H1. simplify_eq.
        exists (fetch_report cur o). cbn. eauto 10.
      - apply bind_inv in H1 as [(? & st3 & H3 & H1)|(x & H3 & ?)]; [|done].
        unfold mret, M_ret, ret in H1. simplify_eq.
        apply save_parties_data_trace in H3 as (n & _ & T & _).
        eexists (fetch_report cur o ++ take n _).
        split; [rewrite T; cbn [ext trace];
                by rewrite <- app_assoc|].
        rewrite fetched_app, sleeps_app, Qf, Qs.
        destruct (take_save_events_quiet n default_output_dir
                    (filepath_of default_output_dir cur)
                    (filepath_of default_output_dir cur)
                    (saved_line cur) (dumps (fetch_value o))) as [-> ->].
        eauto 10. }
    cbn beta iota in H.
    apply bind_inv in H as [(next & st3 & H3 & H)|(x & H3 & ->)].
    + unfold lift in H3. simplify_eq.
      erewrite bind_Ok in H by reflexivity.
      unfold mret, M_ret, ret in H. simplify_eq.
      exists (evs1 ++ [ESleep 200]). cbn [log trace dirs files].
      rewrite T1, fetched_app, sleeps_app, F1, S1.
      split; [by rewrite <- app_assoc|]. split; [done|].
      split; [done|]. split; [done|]. done.
    + unfold lift in H3. simplify_eq.
      exists evs1. eauto 10.
  - destruct (is_None (fetch_value o)) eqn:Hn; cbn [negb] in H1; [done|].
    apply bind_inv in H1 as [(? & st3 & H3 & H1)|(x' & H3 & ?)]; [done|].
    simplify_eq.
    apply save_parties_data_trace in H3 as (n & Hn4 & T & Hok & Hraise).
    destruct (decide (n = 4%nat)) as [->|Hne]; [by specialize (Hok eq_refl)|].
    destruct (Hraise Hne) as [msg ?]. simplify_eq.
    eexists (fetch_report cur o ++ take n _).
    split; [rewrite T; cbn [ext trace];
            by rewrite <- app_assoc|].
    rewrite fetched_app, sleeps_app, Qf, Qs.
    destruct (take_save_events_quiet n default_output_dir
                (filepath_of default_output_dir cur)
                (filepath_of default_output_dir cur)
                (saved_line cur) (dumps (fetch_value o))) as [-> ->].
    eauto 10.
Qed.
End LoopBody.

(** ** The loop *)

Lemma while_loop_done fuel cur en s f e st :
  leb cur en = false -> while_loop fuel cur en s f e st = (Ok (s, f), st).
Proof. intros H. destruct fuel; cbn [while_loop]; by rewrite H. Qed.

Lemma while_loop_step fuel cur en s f e st :
  leb cur en = true ->
  while_loop (S fuel) cur en s f e st =
  ('(c, s', f') ← loop_body cur s f; while_loop fuel c en s' f') e st.
Proof. intros H. cbn [while_loop]. by rewrite H. Qed.

(** The bound is a bound: the loop never runs out of unrollings, and
    more unrollings change nothing.  Each pass moves the cursor one
    month closer to the month after [en]. *)
Lemma while_loop_fuel (n : nat) :
  forall cur en s f e st fuel,
    1 <= month cur <= 12 -> 1 <= month en <= 12 ->
    (loop_bound cur en <= n)%nat -> (n <= fuel)%nat ->
    while_loop fuel cur en s f e st = while_loop n cur en s f e st /\
    fst (while_loop n cur en s f e st) <> Raise FuelExhausted.
Proof.
  induction n as [|n IH]; intros cur en s f e st fuel Hc He Hb Hf.
  - assert (leb cur en = false) as Hl.
    { apply leb_false_month_index; [done..|]. unfold loop_bound in Hb. lia. }
    by rewrite !while_loop_done.
  - destruct (leb cur en) eqn:Hl; [|by rewrite !while_loop_done].
    destruct fuel as [|fuel]; [lia|].
    rewrite !while_loop_step by done.
    destruct (loop_body cur s f e st) as [[[[next s'] f']|x] st'] eqn:Hbody.
    + erewrite !bind_Ok by eassumption. cbn beta iota.
      apply loop_body_inv in Hbody as (_ & _ & _ & Ha & _).
      apply add_one_month_Ok in Ha as (Hi & Hm & _); [|done].
      apply IH; [done..| |lia].
      unfold loop_bound in *. lia.
    + erewrite !bind_Raise by eassumption. split; [done|]. cbn.
      apply loop_body_inv in Hbody as (_ & _ & _ & _ & [[_ [msg ->]]|Ha]);
        [done|].
      intros ?. simplify_eq. by apply add_one_month_not_exhausted in Ha.
Qed.

Corollary while_loop_never_exhausted cur en s f e st :
  1 <= month cur <= 12 -> 1 <= month en <= 12 ->
  fst (while_loop (loop_bound cur en) cur en s f e st) <> Raise FuelExhausted.
Proof. intros. by eapply (while_loop_fuel _ cur en s f e st (loop_bound cur en)). Qed.

Lemma month_seq_S (d : datetime) (k : nat) :
  1 <= month d <= 12 -> day d = 1 ->
  month_seq d (S k) = d :: month_seq (nth_month d 1) k.
Proof.
  intros Hm Hd. unfold month_seq. cbn [seq map].
  change (Z.of_nat 0) with 0. rewrite nth_month_0 by done. f_equal.
  rewrite <- seq_shift, map_map. apply map_ext. intros i.
  rewrite nth_month_nth_month. f_equal. lia.
Qed.

Lemma month_seq_length (d : datetime) (n : nat) : length (month_seq d n) = n.
Proof. unfold month_seq. by rewrite length_map, length_seq. Qed.

(** The loop over firsts of months: the fetches are, in order, those of
    the first [k] months from the cursor on; [k] is the whole range when
    the loop returns, and then every pass moved one counter and slept
    once.  A loop that raises does so with an [OSError], in the pass of
    its last fetch. *)
Lemma while_loop_months (n : nat) :
  forall cur en s f e st fuel r st',
    first_of_month cur ->
    1 <= month en <= 12 -> 1 <= day en -> year en < MAXYEAR ->
    n = loop_bound cur en -> (n <= fuel)%nat ->
    while_loop fuel cur en s f e st = (r, st') ->
    exists k evs, (k <= n)%nat /\
      trace st' = trace st ++ evs /\
      fetched evs = map req (month_seq cur k) /\
      match r with
      | Ok (s', f') =>
          k = n /\ s' + f' = s + f + Z.of_nat n /\ s <= s' /\ f <= f' /\
          sleeps evs = repeat 200 n
      | Raise x =>
          (exists msg, x = OSError msg) /\ (1 <= k)%nat /\
          sleeps evs = repeat 200 (k - 1)
      end.
Proof.
  induction n as [|n IH];
    intros cur en s f e st fuel r st' (Hy & Hm & Hd) Hme Hde Hye Hn Hf H.
  - assert (leb cur en = false) as Hl.
    { apply leb_false_month_index; [done..|]. unfold loop_bound in Hn. lia. }
    rewrite while_loop_done in H by done. simplify_eq.
    exists 0%nat, []. rewrite app_nil_r. split; [done|]. split; [done|].
    split; [done|]. cbn. repeat split; lia.
  - assert (leb cur en = true) as Hl.
    { apply leb_first_of_month; [done..|]. unfold loop_bound in Hn. lia. }
    destruct fuel as [|fuel]; [lia|].
    rewrite while_loop_step in H by done.
    apply bind_inv in H as [([[next s1] f1] & st1 & Hb & H)|(x & Hb & ->)].
    + cbn beta iota in H.
      apply loop_body_inv in Hb as (evs1 & T1 & F1 & Ha & S1 & Hc).
      apply add_one_month_Ok in Ha as (Hi & Hm' & Hnext & Hy'); [|done].
      specialize (Hnext Hd).
      assert (first_of_month next) as Hfn.
      { split; [done|]. split; [done|]. by rewrite Hnext. }
      assert (n = loop_bound next en) as Hn'.
      { unfold loop_bound in *. lia. }
      assert (n <= fuel)%nat as Hf' by lia.
      destruct (IH next en s1 f1 e st1 fuel r st' Hfn Hme Hde Hye Hn' Hf' H)
        as (k & evs & Hk & T & F & Hr).
      exists (S k), (get_event cur :: evs1 ++ evs).
      split; [lia|].
      split; [rewrite T, T1; by rewrite <- app_assoc|].
      split.
      { rewrite month_seq_S by done. cbn [map]. rewrite <- Hnext, <- F.
        change (get_event cur :: evs1 ++ evs)
          with ([get_event cur] ++ evs1 ++ evs).
        by rewrite !fetched_app, F1. }
      change (get_event cur :: evs1 ++ evs)
        with ([get_event cur] ++ evs1 ++ evs).
      rewrite !sleeps_app, S1. cbn [sleeps omap app].
      destruct r as [[s' f']|x].
      * destruct Hr as (-> & Hsum & Hs & Hff & ->).
        split; [done|]. cbn [repeat].
        destruct Hc as [(_ & -> & ->)|(_ & -> & -> & _)];
          repeat split; try lia; done.
      * destruct Hr as (Hx & Hk1 & ->).
        split; [done|]. split; [lia|].
        replace (S k - 1)%nat with (S (k - 1)) by lia. done.
    + apply loop_body_inv in Hb as (evs1 & T1 & F1 & S1 & Hc).
      exists 1%nat, (get_event cur :: evs1).
      split; [lia|]. split; [done|]. split.
      { rewrite month_seq_S by done. cbn [map month_seq seq].
        change (get_event cur :: evs1) with ([get_event cur] ++ evs1).
        by rewrite fetched_app, F1. }
      destruct Hc as [(_ & Hx)|Ha].
      * split; [done|]. split; [lia|].
        change (get_event cur :: evs1) with ([get_event cur] ++ evs1).
        by rewrite sleeps_app, S1.
      * apply add_one_month_Raise in Ha as (Hmax & _); [|done..].
        apply leb_month_index in Hl; [|done..].
        unfold month_index in Hl. lia.
Qed.

(** ** Paths *)

Lemma string_length_app (a b : string) :
  String.length (a +:+ b) = (String.length a + String.length b)%nat.
Proof. induction a as [|c a IH]; simpl; [done|]. by rewrite IH. Qed.

Lemma os_path_join_longer (a b : string) :
  a <> EmptyString -> b <> EmptyString -> os_path_join a b <> a.
Proof.
  intros Ha Hb H. apply (f_equal String.length) in H.
  unfold os_path_join in H. destruct (decide (a = EmptyString)); [done|].
  assert (0 < String.length b)%nat by (destruct b; [done|cbn; lia]).
  destruct (ends_with_slash a); rewrite !string_length_app in H; lia.
Qed.

Lemma filepath_of_not_dir (output_dir : string) (date : datetime) :
  output_dir <> EmptyString -> filepath_of output_dir date <> output_dir.
Proof.
  intros H. apply os_path_join_longer; [done|].
  intros E. apply (f_equal String.length) in E.
  unfold strftime_Ymd_json in E. rewrite string_length_app in E.
  cbn in E. lia.
Qed.

(** ** A filesystem that lets every save through *)

Lemma fs_clean_ext st evs output_dir :
  fs_clean st output_dir -> fs_clean (ext st evs) output_dir.
Proof. done. Qed.

Lemma fs_clean_save_succeeds e st output_dir date :
  no_faults e -> fs_clean st output_dir ->
  save_succeeds e st output_dir date.
Proof.
  intros Hnf (Hne & Hfile & Hdir). unfold save_succeeds.
  rewrite !Hnf. repeat split; [done..|].
  intros [Hin%elem_of_singleton|Hin]%elem_of_union.
  - by apply filepath_of_not_dir in Hin.
  - by apply Hdir in Hin.
Qed.

Lemma fs_clean_saved st output_dir date data :
  fs_clean st output_dir -> fs_clean (saved st output_dir date data) output_dir.
Proof.
  intros (Hne & Hfile & Hdir). split; [done|]. split; cbn [saved files dirs].
  - rewrite lookup_insert_ne; [done|]. by apply filepath_of_not_dir.
  - intros d [Hin%elem_of_singleton|Hin]%elem_of_union.
    + by apply filepath_of_not_dir in Hin.
    + by apply Hdir in Hin.
Qed.

(** With no fault and a clean filesystem a pass returns, and leaves the
    filesystem clean. *)
Lemma loop_body_clean cur s f e st next :
  no_faults e -> fs_clean st default_output_dir ->
  add_one_month cur = Ok next ->
  exists s' f' st', loop_body cur s f e st = (Ok (next, s', f'), st') /\
    fs_clean st' default_output_dir.
Proof.
  intros Hnf Hc Ha.
  destruct (is_None (fetch_value
              (http_get e (now st) (api_url (strftime_Ymd cur))))) eqn:Hn.
  - eexists _, _, _. split; [by apply loop_body_absent|]. by apply fs_clean_ext.
  - eexists _, _, _. split.
    + apply loop_body_saved; [done| |done].
      apply fs_clean_save_succeeds; [done|]. by apply fs_clean_ext.
    + apply fs_clean_ext, fs_clean_saved. by apply fs_clean_ext.
Qed.

Lemma while_loop_clean (n : nat) :
  forall cur en s f e st fuel,
    no_faults e -> fs_clean st default_output_dir ->
    MINYEAR <= year cur <= MAXYEAR -> 1 <= month cur <= 12 ->
    1 <= month en <= 12 -> year en < MAXYEAR ->
    (loop_bound cur en <= n)%nat -> (n <= fuel)%nat ->
    exists s' f' st', while_loop fuel cur en s f e st = (Ok (s', f'), st').
Proof.
  induction n as [|n IH]; intros cur en s f e st fuel Hnf Hc Hy Hm Hme Hye Hn Hf.
  - assert (leb cur en = false) as Hl.
    { apply leb_false_month_index; [done..|]. unfold loop_bound in Hn. lia. }
    rewrite while_loop_done by done. eauto.
  - destruct (leb cur en) eqn:Hl; [|rewrite while_loop_done by done; eauto].
    destruct fuel as [|fuel]; [lia|].
    rewrite while_loop_step by done.
    destruct (add_one_month cur) as [next|x] eqn:Ha.
    + destruct (loop_body_clean cur s f e st next Hnf Hc Ha)
        as (s1 & f1 & st1 & Hb & Hc1).
      erewrite bind_Ok by eassumption. cbn beta iota.
      apply add_one_month_Ok in Ha as (Hi & Hm' & _ & Hy'); [|done].
      apply IH; [done..| |lia]. unfold loop_bound in *. lia.
    + apply add_one_month_Raise in Ha as (Hmax & _); [|done..].
      apply leb_month_index in Hl; [|done..].
      unfold month_index in Hl. lia.
Qed.

(** ** [run] *)

Lemma run_eq start en e st :
  run start en e st =
  match while_loop (loop_bound start en) start en 0 0 e
          (ext st (header start en)) with
  | (Ok (s, f), st') => (Ok tt, ext st' (footer s f))
  | (Raise x, st') => (Raise x, st')
  end.
Proof.
  unfold run. do 3 (erewrite bind_Ok by reflexivity).
  rewrite !log_ext, !ext_ext. cbn [app]. fold (header start en).
  destruct (while_loop _ _ _ _ _ _ _) as [[[s f]|x] st'] eqn:H.
  - erewrite bind_Ok by eassumption. cbn beta iota.
    erewrite bind_Ok by reflexivity. unfold print.
    by rewrite !log_ext, !ext_ext.
  - by erewrite bind_Raise by eassumption.
Qed.

(** ** [main] *)

Lemma main_constants :
  first_of_month start_date /\ first_of_month end_date /\
  loop_bound start_date end_date = 121%nat /\
  total_months start_date end_date = 121.
Proof. unfold first_of_month. vm_compute. intuition congruence. Qed.

(** Every run of [main]: the events between the header and the footer,
    the fetches among them, and how the run ended. *)
Lemma main_inv e st r st' :
  main e st = (r, st') ->
  exists k evs, (k <= 121)%nat /\
    fetched evs = map req (month_seq start_date k) /\
    match r with
    | Ok _ =>
        exists s f, k = 121%nat /\ s + f = 121 /\ 0 <= s /\ 0 <= f /\
          sleeps evs = repeat 200 121 /\
          trace st' = trace st ++ header start_date end_date ++ evs ++ footer s f
    | Raise x =>
        (exists msg, x = OSError msg) /\ (1 <= k)%nat /\
        sleeps evs = repeat 200 (k - 1) /\
        trace st' = trace st ++ header start_date end_date ++ evs
    end.
Proof.
  destruct main_constants as (Hs & He & Hb & _).
  unfold main. rewrite run_eq, Hb. intros H.
  destruct (while_loop 121 start_date end_date 0 0 e
              (ext st (header start_date end_date)))
    as [r1 st1] eqn:Hw.
  eapply (while_loop_months 121) in Hw as (k & evs & Hk & T & F & Hr);
    [|done|vm_compute; intuition congruence|done|done|done|done].
  exists k, evs. split; [done|]. split; [done|].
  destruct r1 as [[s f]|x]; simplify_eq.
  - destruct Hr as (-> & Hsum & H0s & H0f & Hsl).
    exists s, f. repeat split; try done; try lia.
    cbn [ext trace]. rewrite T. cbn [ext trace]. by rewrite <- !app_assoc.
  - destruct Hr as (Hx & Hk1 & Hsl). repeat split; try done.
    rewrite T. cbn [ext trace]. by rewrite <- !app_assoc.
Qed.

(** [main] returns whenever no filesystem operation fails. *)
Lemma main_completes e st :
  no_faults e -> fs_clean st default_output_dir ->
  exists st', main e st = (Ok tt, st').
Proof.
  intros Hnf Hc. destruct main_constants as (Hs & He & Hb & _).
  unfold main. rewrite run_eq, Hb.
  destruct Hs as (Hys & Hms & _). destruct He as (Hye & Hme & _).
  assert (year end_date < MAXYEAR) as Hlt by done.
  assert (loop_bound start_date end_date <= 121)%nat as Hle by by rewrite Hb.
  destruct (while_loop_clean 121 start_date end_date 0 0 e
              (ext st (header start_date end_date)) 121
              Hnf (fs_clean_ext _ _ _ Hc) Hys Hms Hme Hlt Hle (Nat.le_refl _))
    as (s & f & st' & ->).
  eauto.
Qed.

Lemma main_never_exhausted e st : fst (main e st) <> Raise FuelExhausted.
Proof.
  destruct (main e st) as [r st'] eqn:H. apply main_inv in H as (k & evs & _ & _ & H).
  destruct r as [?|x]; [done|]. destruct H as ([msg ->] & _). done.
Qed.

Lemma month_seq_take (d : datetime) (k n : nat) :
  (k <= n)%nat -> month_seq d k = take k (month_seq d n).
Proof.
  intros H. unfold month_seq. rewrite <- fmap_take.
  change (@fmap list _) with (@map). f_equal.
  replace n with (k + (n - k))%nat by lia.
  by rewrite seq_app, take_app_length' by by rewrite length_seq.
Qed.

(** The configured range, month by month. *)
Lemma configured_months_shape :
  length configured_months = 121%nat /\
  head configured_months = Some start_date /\
  last configured_months = Some end_date /\
  Forall (fun d => day d = 1) configured_months /\
  consecutive configured_months /\
  StronglySorted (fun a b => ltb a b = true) configured_months /\
  NoDup (map req configured_months).
Proof.
  split; [by vm_compute|]. split; [by vm_compute|]. split; [by vm_compute|].
  split; [apply (bool_decide_unpack _); by vm_compute|].
  split; [vm_compute; repeat split|].
  split; apply (bool_decide_unpack _); by vm_compute.
Qed.

(** ** Runs in which no fetch returns a snapshot *)

Lemma fetch_report_no_fs (date : datetime) (o : http_outcome) :
  no_fs_events (fetch_report date o).
Proof. unfold fetch_report, no_fs_events. repeat case_match; by repeat constructor. Qed.

Lemma while_loop_nothing_fetched (n : nat) :
  forall cur en s f e st fuel,
    nothing_fetched e ->
    MINYEAR <= year cur <= MAXYEAR -> 1 <= month cur <= 12 ->
    1 <= month en <= 12 -> year en < MAXYEAR ->
    (loop_bound cur en <= n)%nat -> (n <= fuel)%nat ->
    exists s' f' evs,
      while_loop fuel cur en s f e st = (Ok (s', f'), ext st evs) /\
      no_fs_events evs.
Proof.
  induction n as [|n IH]; intros cur en s f e st fuel Hnf Hy Hm Hme Hye Hn Hf.
  - assert (leb cur en = false) as Hl.
    { apply leb_false_month_index; [done..|]. unfold loop_bound in Hn. lia. }
    rewrite while_loop_done by done. exists s, f, []. rewrite ext_nil.
    split; [done|]. constructor.
  - destruct (leb cur en) eqn:Hl; cycle 1.
    { rewrite while_loop_done by done. exists s, f, []. rewrite ext_nil.
      split; [done|]. constructor. }
    destruct fuel as [|fuel]; [lia|].
    rewrite while_loop_step by done.
    destruct (add_one_month cur) as [next|x] eqn:Ha.
    + erewrite bind_Ok by (by apply loop_body_absent). cbn beta iota.
      apply add_one_month_Ok in Ha as (Hi & Hm' & _ & Hy'); [|done].
      edestruct (IH next en s (f + 1) e) as (s' & f' & evs & -> & Hevs);
        [done..| |by apply Nat.succ_le_mono|].
      { unfold loop_bound in *. lia. }
      rewrite ext_ext. eexists _, _, _. split; [done|].
      apply Forall_app. split; [|done].
      constructor; [done|]. apply Forall_app. split;
        [apply fetch_report_no_fs|by repeat constructor].
    + apply add_one_month_Raise in Ha as (Hmax & _); [|done..].
      apply leb_month_index in Hl; [|done..].
      unfold month_index in Hl. lia.
Qed.

(** ** The loop as a transition system *)

Lemma loop_body_not_exhausted cur s f e st st' :
  loop_body cur s f e st <> (Raise FuelExhausted, st').
Proof.
  intros H. apply loop_body_inv in H as (_ & _ & _ & _ & [[_ [msg ?]]|Ha]);
    [done|]. by apply add_one_month_not_exhausted in Ha.
Qed.

(** A loop that did not run out of unrollings does the same with more. *)
Lemma while_loop_mono (fuel : nat) :
  forall cur en s f e st fuel',
    fst (while_loop fuel cur en s f e st) <> Raise FuelExhausted ->
    (fuel <= fuel')%nat ->
    while_loop fuel' cur en s f e st = while_loop fuel cur en s f e st.
Proof.
  induction fuel as [|fuel IH]; intros cur en s f e st fuel' Hne Hle.
  - destruct (leb cur en) eqn:Hl; [|by rewrite !while_loop_done].
    cbn [while_loop] in Hne. by rewrite Hl in Hne.
  - destruct (leb cur en) eqn:Hl; [|by rewrite !while_loop_done].
    destruct fuel' as [|fuel']; [lia|].
    rewrite while_loop_step in Hne by done. rewrite !while_loop_step by done.
    destruct (loop_body cur s f e st) as [[[[next s1] f1]|x] st1] eqn:Hb.
    + erewrite bind_Ok in Hne by eassumption.
      erewrite !bind_Ok by eassumption. cbn beta iota in *.
      apply IH; [done|lia].
    + by erewrite !bind_Raise by eassumption.
Qed.

(** Passes already made can be skipped. *)
Lemma while_loop_reached e en (c c' : config) :
  rtc (loop_step e en) c c' ->
  exists k, forall fuel st_,
    while_loop_at (k + fuel) en c e st_ = while_loop_at fuel en c' e st_.
Proof.
  induction 1 as [c|c c1 c' Hstep _ [k IH]].
  - by exists 0%nat.
  - exists (S k). intros fuel st_. rewrite <- IH.
    destruct Hstep as [cur s f st next s' f' st' Hl Hb].
    unfold while_loop_at. cbn [Nat.add].
    rewrite while_loop_step by done. by erewrite bind_Ok by eassumption.
Qed.

(** A save that raises in a pass the loop reaches ends the loop and
    the run, there and then. *)
Lemma run_save_raise start en e st cur s f st1 x st2 :
  1 <= month start <= 12 -> 1 <= month en <= 12 ->
  rtc (loop_step e en) (start, 0, 0, ext st (header start en)) (cur, s, f, st1) ->
  leb cur en = true ->
  loop_body cur s f e st1 = (Raise x, st2) ->
  run start en e st = (Raise x, st2).
Proof.
  intros Hms Hme Hreach Hl Hb.
  apply while_loop_reached in Hreach as [k Hk].
  specialize (Hk 1%nat st). unfold while_loop_at in Hk.
  rewrite while_loop_step in Hk by done.
  erewrite bind_Raise in Hk by eassumption.
  assert (x <> FuelExhausted) as Hx.
  { intros ->. by apply loop_body_not_exhausted in Hb. }
  rewrite run_eq.
  destruct (Nat.le_gt_cases (k + 1) (loop_bound start en)) as [Hle|Hgt].
  - rewrite (while_loop_mono (k + 1)); [by rewrite Hk| |done].
    rewrite Hk. cbn. congruence.
  - destruct (while_loop_fuel (loop_bound start en) start en 0 0 e
                (ext st (header start en)) (k + 1)) as [<- _];
      [done..|lia|]. by rewrite Hk.
Qed.

(** A loop that returns has made some number of passes and stopped at
    the first cursor past the end date. *)
Lemma while_loop_Ok_nsteps (fuel : nat) :
  forall cur en s f e st s' f' st',
    while_loop fuel cur en s f e st = (Ok (s', f'), st') ->
    exists n c, nsteps (loop_step e en) n (cur, s, f, st) (c, s', f', st') /\
      leb c en = false.
Proof.
  induction fuel as [|fuel IH]; intros cur en s f e st s' f' st' H.
  - destruct (leb cur en) eqn:Hl.
    + cbn [while_loop] in H. by rewrite Hl in H.
    + rewrite while_loop_done in H by done. simplify_eq.
      exists 0%nat, cur. split; [constructor|done].
  - destruct (leb cur en) eqn:Hl.
    + rewrite while_loop_step in H by done.
      apply bind_inv in H as [([[next s1] f1] & st1 & Hb & H)|(x & _ & ?)];
        [|done].
      cbn beta iota in H. apply IH in H as (n & c & Hn & Hc).
      exists (S n), c. split; [|done].
      eapply nsteps_l; [|exact Hn]. by constructor.
    + rewrite while_loop_done in H by done. simplify_eq.
      exists 0%nat, cur. split; [constructor|done].
Qed.

(** Each pass sends one request. *)
Lemma nsteps_fetched e en (n : nat) (c c' : config) :
  nsteps (loop_step e en) n c c' ->
  length (fetched (trace c'.2)) = (length (fetched (trace c.2)) + n)%nat.
Proof.
  induction 1 as [c|n c c1 c' Hstep _ IH]; [lia|].
  rewrite IH. destruct Hstep as [cur s f st next s' f' st' Hl Hb].
  apply loop_body_inv in Hb as (evs & T & F & _). cbn [snd].
  rewrite T. change (get_event cur :: evs) with ([get_event cur] ++ evs).
  rewrite !fetched_app, F, !length_app. cbn. lia.
Qed.

(** A run of [main] that returns has made exactly 121 passes. *)
Lemma main_passes e st st' :
  main e st = (Ok tt, st') ->
  exists c s f st_end,
    nsteps (loop_step e end_date) 121
      (start_date, 0, 0, ext st (header start_date end_date))
      (c, s, f, st_end) /\
    leb c end_date = false /\ st' = ext st_end (footer s f).
Proof.
  destruct main_constants as (Hs & He & Hb & _).
  unfold main. rewrite run_eq, Hb. intros H.
  destruct (while_loop 121 start_date end_date 0 0 e
              (ext st (header start_date end_date)))
    as [[[s f]|x] st1] eqn:Hw; simplify_eq.
  pose proof Hw as Hw'.
  apply while_loop_Ok_nsteps in Hw as (n & c & Hn & Hc).
  eapply (while_loop_months 121) in Hw' as (k & evs & _ & T & F & Hr);
    [|done|vm_compute; intuition congruence|done|done|done|done].
  destruct Hr as (-> & _).
  apply nsteps_fetched in Hn as Hlen. cbn [snd] in Hlen.
  rewrite T, fetched_app, length_app, F, length_map, month_seq_length in Hlen.
  assert (n = 121%nat) as -> by lia.
  by exists c, s, f, st1.
Qed.

(** * The claims *)

(** ** The formats *)















(** C1.  Every pass of the loop of [main] that completes moves exactly
    one of the two counters: the success counter when the fetch returned
    a snapshot, the failure counter otherwise.  Hence, in every run that
    reaches the final summary, the two counts printed there are
    non-negative and add up to the number of months of the configured
    range, 121.  The run itself never loops for ever, and it reaches the
    summary whenever no filesystem operation fails. *)
Theorem main_counters_sum (e : env) (st : state) :
  (forall cur s f st1 next s' f' st2,
      loop_body cur s f e st1 = (Ok (next, s', f'), st2) ->
      let data := fetch_value (http_get e (now st1) (api_url (strftime_Ymd cur))) in
      (is_None data = false /\ s' = s + 1 /\ f' = f) \/
      (is_None data = true /\ s' = s /\ f' = f + 1)) /\
  fst (main e st) <> Raise FuelExhausted /\
  (no_faults e -> fs_clean st default_output_dir -> fst (main e st) = Ok tt) /\
  (forall st', main e st = (Ok tt, st') ->
     exists s f, 0 <= s /\ 0 <= f /\
       last (trace st') = Some (EPrint (completed_line s f)) /\
       s + f = total_months start_date end_date /\
       s + f = Z.of_nat (length configured_months)).
Proof.
  split; [|split; [|split]].
  - intros cur s f st1 next s' f' st2 H.
    apply loop_body_inv in H as (evs & _ & _ & _ & _ & H). cbv zeta.
    destruct H as [(? & ? & ?)|(? & ? & ? & _)]; eauto.
  - apply main_never_exhausted.
  - intros Hnf Hc. destruct (main_completes e st Hnf Hc) as [st' ->]. done.
  - intros st' H. apply main_inv in H as (k & evs & _ & _ & s & f & H).
    destruct H as (_ & Hsum & Hs & Hf & _ & T).
    exists s, f. split; [done|]. split; [done|]. split.
    + rewrite T. unfold footer.
      rewrite !app_assoc.
      change [EPrint (dashes 60); EPrint (completed_line s f)]
        with ([EPrint (dashes 60)] ++ [EPrint (completed_line s f)]).
      rewrite app_assoc. apply last_snoc.
    + destruct main_constants as (_ & _ & _ & ->).
      destruct configured_months_shape as (-> & _). done.
Qed.

(** A run against a service that answers 404 throughout reaches the
    summary, with 0 successes and 121 failures. *)
Lemma main_counters_sum_witness :
  exists s f, 0 <= s /\ 0 <= f /\
    last (trace (snd (main env_404 st0))) = Some (EPrint (completed_line s f)) /\
    s + f = total_months start_date end_date /\
    s + f = Z.of_nat (length configured_months).
Proof.
  apply (proj2 (proj2 (proj2 (main_counters_sum env_404 st0)))
           (snd (main env_404 st0))).
  vm_compute. reflexivity.
Defined.

(** C2.  [main] fetches the firsts of the months from 1980-01-01 to
    1990-01-01, both included, in ascending order and one calendar
    month apart.  In every run the requests sent are, in order, those
    for an initial stretch of that list, so no date is requested twice;
    in every run that returns the stretch is the whole list, so no date
    is skipped; and the run returns whenever no filesystem operation
    fails. *)
Theorem main_visits_each_month_once (e : env) (st : state) (r : result unit)
    (st' : state) :
  main e st = (r, st') ->
  (head configured_months = Some start_date /\
   last configured_months = Some end_date /\
   Forall (fun d => day d = 1) configured_months /\
   consecutive configured_months /\
   StronglySorted (fun a b => ltb a b = true) configured_months) /\
  exists k evs, (k <= length configured_months)%nat /\
    trace st' = trace st ++ evs /\
    fetched evs = map req (take k configured_months) /\
    NoDup (fetched evs) /\
    (r = Ok tt -> fetched evs = map req configured_months) /\
    (no_faults e -> fs_clean st default_output_dir -> r = Ok tt).
Proof.
  intros H.
  destruct configured_months_shape as (Hlen & Hh & Hl & Hd & Hc & Hs & Hnd).
  split; [done|].
  assert (no_faults e -> fs_clean st default_output_dir -> r = Ok tt) as Hret.
  { intros Hnf Hcl. destruct (main_completes e st Hnf Hcl) as [st1 H1].
    congruence. }
  apply main_inv in H as (k & evs & Hk & F & H).
  assert (map req (month_seq start_date k) = map req (take k configured_months))
    as Ftake by (unfold configured_months; by rewrite <- month_seq_take).
  assert (NoDup (map req (take k configured_months))) as Hnd'.
  { change (@map) with (@fmap list _). rewrite fmap_take.
    eapply sublist_NoDup; [exact Hnd|]. apply sublist_take. }
  destruct r as [[]|x].
  - destruct H as (s & f & -> & _ & _ & _ & _ & T).
    exists 121%nat, (header start_date end_date ++ evs ++ footer s f).
    rewrite Hlen. split; [done|]. split; [done|].
    rewrite !fetched_app. change (fetched (header _ _)) with (@nil (string * Z)).
    change (fetched (footer s f)) with (@nil (string * Z)).
    rewrite app_nil_r, app_nil_l, F, Ftake.
    split; [done|]. split; [done|]. split; [|done]. intros _.
    by rewrite <- Hlen, firstn_all.
  - destruct H as (_ & _ & _ & T).
    exists k, (header start_date end_date ++ evs).
    rewrite Hlen. split; [done|]. split; [done|].
    rewrite !fetched_app. change (fetched (header _ _)) with (@nil (string * Z)).
    rewrite app_nil_l, F, Ftake. done.
Qed.

(** Against the service that answers 404 throughout, the run returns
    and has requested every month of the range. *)
Lemma main_visits_each_month_once_witness :
  exists k evs, (k <= length configured_months)%nat /\
    trace (snd (main env_404 st0)) = trace st0 ++ evs /\
    fetched evs = map req (take k configured_months) /\
    NoDup (fetched evs) /\
    fetched evs = map req configured_months.
Proof.
  destruct (main_visits_each_month_once env_404 st0 (Ok tt)
              (snd (main env_404 st0)))
    as (_ & k & evs & Hk & T & F & Hnd & Hall & _).
  - vm_compute. reflexivity.
  - exists k, evs. split; [exact Hk|]. split; [exact T|]. split; [exact F|].
    split; [exact Hnd|]. apply Hall. reflexivity.
Defined.

(** C9.  The constants of [main] are 1980-01-01 and 1990-01-01.  The
    count in the header, computed from them, is 121, and a run that
    returns has made exactly 121 passes of the loop body before the
    cursor went past the end date, one for each month from January 1980
    to January 1990: 121 requests, for those months in order, and 121
    sleeps.  Runs return whenever no filesystem operation fails. *)
Theorem main_121_iterations (e : env) (st st' : state) :
  main e st = (Ok tt, st') ->
  start_date = mk 1980 1 1 /\ end_date = mk 1990 1 1 /\
  total_months start_date end_date = 121 /\
  (forall e1 st1, no_faults e1 -> fs_clean st1 default_output_dir ->
     fst (main e1 st1) = Ok tt) /\
  exists evs,
    trace st' = trace st ++ evs /\
    console evs !! 1%nat = Some "Total months to process: 121" /\
    fetched evs = map req (month_seq (mk 1980 1 1) 121) /\
    length (fetched evs) = 121%nat /\
    length (sleeps evs) = 121%nat /\
    last (month_seq (mk 1980 1 1) 121) = Some (mk 1990 1 1) /\
    exists c s f st_end,
      nsteps (loop_step e end_date) 121
        (start_date, 0, 0, ext st (header start_date end_date))
        (c, s, f, st_end) /\
      leb c end_date = false.
Proof.
  intros H. split; [done|]. split; [done|]. split; [done|].
  split.
  { intros e1 st1 Hnf Hcl.
    by destruct (main_completes e1 st1 Hnf Hcl) as [? ->]. }
  destruct (main_passes e st st' H) as (c & s0 & f0 & st_end & Hn & Hc & _).
  apply main_inv in H as (k & evs & _ & F & s & f & -> & _ & _ & _ & S & T).
  exists (header start_date end_date ++ evs ++ footer s f).
  split; [done|]. split; [done|].
  rewrite !fetched_app, !sleeps_app.
  change (fetched (header _ _)) with (@nil (string * Z)).
  change (fetched (footer s f)) with (@nil (string * Z)).
  change (sleeps (header _ _)) with (@nil Z).
  change (sleeps (footer s f)) with (@nil Z).
  rewrite !app_nil_r, !app_nil_l, F, S.
  split; [done|]. split; [by rewrite length_map, month_seq_length|].
  split; [by rewrite repeat_length|]. split; [by vm_compute|].
  by exists c, s0, f0, st_end.
Qed.

Lemma main_121_iterations_witness :
  total_months start_date end_date = 121 /\
  exists evs,
    trace (snd (main env_404 st0)) = trace st0 ++ evs /\
    console evs !! 1%nat = Some "Total months to process: 121" /\
    fetched evs = map req (month_seq (mk 1980 1 1) 121) /\
    length (fetched evs) = 121%nat /\
    length (sleeps evs) = 121%nat.
Proof.
  destruct (main_121_iterations env_404 st0 (snd (main env_404 st0)))
    as (_ & _ & Ht & _ & evs & T & C & F & Lf & Ls & _).
  - vm_compute. reflexivity.
  - split; [exact Ht|]. exists evs.
    split; [exact T|]. split; [exact C|]. split; [exact F|].
    split; [exact Lf|exact Ls].
Defined.




(** The same request, evaluated. *)
Example get_parties_data_404 :
  get_parties_data (mk 1990 2 1) env_404 st0 =
  (Ok JNull,
   ext st0
     [EGet "https://members-api.parliament.uk/api/Parties/StateOfTheParties/1/1990-02-01" 10;
      EPrint "No data for 1990-02-01 (Status: 404)"]).
Proof. reflexivity. Qed.



(** C10.  The directory is made by [save_parties_data] alone, and
    [main] calls it only with a snapshot in hand.  So when no fetch
    returns a snapshot, [main] returns without having attempted any
    filesystem operation, and the directories and files are those it
    started with. *)
Theorem nothing_fetched_nothing_written (e : env) (st : state) :
  nothing_fetched e ->
  exists st' evs,
    main e st = (Ok tt, st') /\
    trace st' = trace st ++ evs /\ no_fs_events evs /\
    dirs st' = dirs st /\ files st' = files st.
Proof.
  intros Hnf. destruct main_constants as (Hs & He & Hb & _).
  destruct Hs as (Hys & Hms & _). destruct He as (Hye & Hme & _).
  unfold main. rewrite run_eq, Hb.
  edestruct (while_loop_nothing_fetched 121 start_date end_date 0 0 e
               (ext st (header start_date end_date)) 121)
    as (s & f & evs & -> & Hevs); [done..|by rewrite Hb|done|].
  rewrite !ext_ext. eexists _, _. split; [done|]. split; [done|].
  split; [|done].
  apply Forall_app. split; [by repeat constructor|].
  apply Forall_app. split; [done|by repeat constructor].
Qed.

Lemma nothing_fetched_nothing_written_witness :
  exists st' evs,
    main env_down st0 = (Ok tt, st') /\
    trace st' = trace st0 ++ evs /\ no_fs_events evs /\
    dirs st' = dirs st0 /\ files st' = files st0.
Proof.
  apply (nothing_fetched_nothing_written env_down st0).
  intros t url. reflexivity.
Defined.




(** What the file then holds, line by line. *)
Example json_text_sample_snapshot :
  let q := String (ascii_of_nat 34) EmptyString in
  let nl := String (ascii_of_nat 10) EmptyString in
  json_text 0 sample_snapshot =
  "{" +:+ nl +:+
  "  " +:+ q +:+ "party" +:+ q +:+ ": " +:+ q +:+ "Sinn Féin" +:+ q +:+ "," +:+ nl +:+
  "  " +:+ q +:+ "seats" +:+ q +:+ ": [" +:+ nl +:+
  "    7," +:+ nl +:+
  "    0" +:+ nl +:+
  "  ]" +:+ nl +:+
  "}".
Proof. reflexivity. Qed.

(** A control character is escaped, a lone surrogate is not
    well-formed. *)
Example json_text_escapes :
  json_text 0 (JStr (String (ascii_of_nat 9) (String (ascii_of_nat 1) "a\")))
  = String (ascii_of_nat 34)
      ("\t\u0001a\\" +:+ String (ascii_of_nat 34) EmptyString) /\
  utf8 [237; 160; 128]%nat = false /\
  utf8 [195; 169]%nat = true.
Proof. repeat split. Qed.

(** The same text, from the serializer of the script. *)
Example dumps_sample_snapshot :
  let q := String dquote EmptyString in
  let nl := String newline EmptyString in
  dumps sample_snapshot =
  "{" +:+ nl +:+
  "  " +:+ q +:+ "party" +:+ q +:+ ": " +:+ q +:+ "Sinn Féin" +:+ q +:+ "," +:+ nl +:+
  "  " +:+ q +:+ "seats" +:+ q +:+ ": [" +:+ nl +:+
  "    7," +:+ nl +:+
  "    0" +:+ nl +:+
  "  ]" +:+ nl +:+
  "}".
Proof. reflexivity. Qed.

(** C6, as the claim has it, fails at the last month of the calendar:
    1 December 9999 is a date with day 1, and advancing it raises
    instead of yielding a date. *)
Lemma add_one_month_last_month_raises :
  valid last_month = true /\ day last_month = 1 /\
  add_one_month last_month = Raise (ValueError "year 10000 is out of range") /\
  ~ (forall d, valid d = true -> day d = 1 ->
       exists d', add_one_month d = Ok d' /\ day d' = 1).
Proof.
  split; [done|]. split; [done|]. split; [done|].
  intros H. destruct (H last_month) as (d' & Hd' & _); done.
Qed.

(** C6, amended.  For every date with day 1 other than 1 December 9999,
    advancing by one month yields day 1 of the next calendar month,
    whatever the length of the month left behind: the month after
    December is January of the next year. *)
Theorem add_one_month_first_of_month (d : datetime) :
  valid d = true -> day d = 1 -> d <> last_month ->
  add_one_month d = Ok (next_first d) /\
  day (next_first d) = 1 /\
  (month d = 12 -> year (next_first d) = year d + 1 /\ month (next_first d) = 1) /\
  (month d <> 12 -> year (next_first d) = year d /\ month (next_first d) = month d + 1) /\
  valid (next_first d) = true.
Proof.
  destruct d as [y m dd]. unfold valid, last_month, next_first, add_one_month,
    MINYEAR, MAXYEAR. cbn [year month day].
  intros Hv -> Hne.
  repeat (apply andb_prop in Hv as [Hv ?]).
  assert (1 <= y <= 9999 /\ 1 <= m <= 12) as [Hy Hm] by lia.
  assert (~ (y = 9999 /\ m = 12)) as Hlast by (intros [-> ->]; done).
  destruct (Z.eqb_spec m 12) as [->|Hm12].
  - change (12 + 1 >? 12) with true. cbn beta iota.
    assert ((1 <=? y + 1) && (y + 1 <=? 9999) = true) as -> by lia.
    change (12 + 1 - 12) with 1.
    rewrite Z.min_r by apply days_in_month_ge_1.
    cbn [year month day].
    repeat split; try done; try lia.
    pose proof (days_in_month_ge_1 (y + 1) 1). lia.
  - destruct (Z.gtb_spec (m + 1) 12); [lia|]. cbn beta iota.
    assert ((1 <=? y) && (y <=? 9999) = true) as -> by lia.
    rewrite Z.min_r by apply days_in_month_ge_1.
    cbn [year month day].
    repeat split; try done; try lia.
    pose proof (days_in_month_ge_1 y (m + 1)). lia.
Qed.

(** From 1 December 1990 to 1 January 1991. *)
Lemma add_one_month_first_of_month_witness :
  add_one_month (mk 1990 12 1) = Ok (mk 1991 1 1).
Proof.
  apply (add_one_month_first_of_month (mk 1990 12 1)).
  - reflexivity.
  - reflexivity.
  - discriminate.
Defined.

(** From 1 January 1990, a month of 31 days, to 1 February 1990. *)
Example add_one_month_january : add_one_month (mk 1990 1 1) = Ok (mk 1990 2 1).
Proof. reflexivity. Qed.





(** C8.  [save_parties_data] handles nothing: when making the
    directory, opening the file or writing it raises, the save raises
    the same error and does nothing more.  [main] does not handle it
    either: when the save of a pass that the loop reaches raises, the
    run raises that error and stops there, with no later request and no
    summary.  A fetch, by contrast, never raises. *)
Theorem persist_errors_propagate (e : env) :
  (forall date data output_dir st x st1,
      os_makedirs output_dir e st = (Raise x, st1) ->
      save_parties_data date data output_dir e st = (Raise x, st1)) /\
  (forall date data output_dir st st1 x st2,
      os_makedirs output_dir e st = (Ok tt, st1) ->
      open_w (os_path_join output_dir (strftime_Ymd_json date)) e st1
      = (Raise x, st2) ->
      save_parties_data date data output_dir e st = (Raise x, st2)) /\
  (forall date data output_dir st st1 st2 x st3,
      os_makedirs output_dir e st = (Ok tt, st1) ->
      open_w (os_path_join output_dir (strftime_Ymd_json date)) e st1
      = (Ok tt, st2) ->
      write (os_path_join output_dir (strftime_Ymd_json date)) (dumps data) e st2
      = (Raise x, st3) ->
      save_parties_data date data output_dir e st = (Raise x, st3)) /\
  (forall start en st cur s f st1 data st1' x st2,
      1 <= month start <= 12 -> 1 <= month en <= 12 ->
      rtc (loop_step e en) (start, 0, 0, ext st (header start en))
        (cur, s, f, st1) ->
      leb cur en = true ->
      get_parties_data cur e st1 = (Ok data, st1') ->
      is_None data = false ->
      save_parties_data cur data default_output_dir e st1' = (Raise x, st2) ->
      run start en e st = (Raise x, st2)) /\
  (forall date st, exists v, fst (get_parties_data date e st) = Ok v).
Proof.
  split; [|split; [|split; [|split]]].
  - intros. by apply save_parties_data_makedirs_raise.
  - intros. by eapply save_parties_data_open_raise.
  - intros. by eapply save_parties_data_write_raise.
  - intros start en st cur s f st1 data st1' x st2 Hms Hme Hreach Hl Hg Hn Hs.
    rewrite get_parties_data_eq in Hg. simplify_eq.
    eapply run_save_raise; [done..|]. by apply loop_body_save_raise.
  - intros date st. rewrite get_parties_data_eq. by eexists.
Qed.

(** A full disk: the first write of [main] fails, and that is where
    the run ends, one request in. *)
Example main_disk_full :
  fst (main env_disk_full st0) = Raise (OSError "No space left on device") /\
  fetched (trace (snd (main env_disk_full st0))) = [req start_date] /\
  last (trace (snd (main env_disk_full st0)))
  = Some (EWrite "parties_data/1980-01-01.json" (dumps sample_snapshot)).
Proof. split; [by vm_compute|]. split; by vm_compute. Qed.

(** * Further properties of the script *)

(** ** Dates and names *)

Lemma digit_inj (a b : Z) : digit a = digit b -> a mod 10 = b mod 10.
Proof.
  unfold digit. intros H. apply (f_equal nat_of_ascii) in H.
  pose proof (Z.mod_pos_bound a 10). pose proof (Z.mod_pos_bound b 10).
  rewrite !nat_ascii_embedding in H by lia. lia.
Qed.

Lemma zfill2_inj (a b : Z) :
  0 <= a <= 99 -> 0 <= b <= 99 -> zfill2 a = zfill2 b -> a = b.
Proof.
  unfold zfill2. intros Ha Hb H. injection H as H1 H0.
  apply digit_inj in H1, H0.
  rewrite Z.mod_small in H1 by (Z.div_mod_to_equations; lia).
  rewrite (Z.mod_small (b / 10)) in H1 by (Z.div_mod_to_equations; lia).
  Z.div_mod_to_equations. lia.
Qed.

Lemma zfill4_inj (a b : Z) :
  0 <= a <= 9999 -> 0 <= b <= 9999 -> zfill4 a = zfill4 b -> a = b.
Proof.
  unfold zfill4, zfill2. intros Ha Hb H. injection H as H3 H2 H1 H0.
  apply digit_inj in H3, H2, H1, H0.
  Z.div_mod_to_equations. lia.
Qed.

(** Two valid dates from the year 1000 on that print alike are the
    same date. *)
Lemma strftime_Ymd_inj (a b : datetime) :
  valid a = true -> valid b = true -> 1000 <= year a -> 1000 <= year b ->
  strftime_Ymd a = strftime_Ymd b -> a = b.
Proof.
  destruct a as [y1 m1 d1], b as [y2 m2 d2].
  unfold valid, MINYEAR, MAXYEAR. cbn [year month day].
  intros Ha Hb Hy1 Hy2 H.
  repeat (apply andb_prop in Ha as [Ha ?]).
  repeat (apply andb_prop in Hb as [Hb ?]).
  assert (d1 <= 31) by (pose proof (days_in_month_ge_1 y1 m1);
    unfold days_in_month in *; repeat case_match; lia).
  assert (d2 <= 31) by (pose proof (days_in_month_ge_1 y2 m2);
    unfold days_in_month in *; repeat case_match; lia).
  unfold strftime_Ymd, year_text in H. cbn [year month day] in H.
  assert ((y1 <? 1000) = false) as E1 by lia.
  assert ((y2 <? 1000) = false) as E2 by lia.
  rewrite E1, E2 in H.
  unfold zfill4, zfill2 in H. simpl in H.
  injection H as Y3 Y2 Y1 Y0 M1 M0 D1 D0.
  assert (y1 = y2).
  { apply zfill4_inj; [lia..|]. unfold zfill4, zfill2. congruence. }
  assert (m1 = m2).
  { apply zfill2_inj; [lia..|]. unfold zfill2. congruence. }
  assert (d1 = d2).
  { apply zfill2_inj; [lia..|]. unfold zfill2. congruence. }
  congruence.
Qed.

Lemma string_app_inj_l (x y s : string) : x +:+ s = y +:+ s -> x = y.
Proof.
  revert y. induction x as [|c x IH]; intros [|c' y] H.
  - done.
  - apply (f_equal String.length) in H.
    rewrite !string_length_app in H. simpl in H. lia.
  - apply (f_equal String.length) in H.
    rewrite !string_length_app in H. simpl in H. lia.
  - simpl in H. injection H as -> H. f_equal. by apply IH.
Qed.

Lemma strftime_Ymd_json_inj (a b : datetime) :
  strftime_Ymd_json a = strftime_Ymd_json b -> strftime_Ymd a = strftime_Ymd b.
Proof. unfold strftime_Ymd_json. apply string_app_inj_l. Qed.

Lemma string_app_inj_r (p x y : string) : p +:+ x = p +:+ y -> x = y.
Proof. induction p as [|c p IH]; simpl; [done|]. intros H. injection H as H. auto. Qed.

Lemma os_path_join_inj (a x y : string) :
  os_path_join a x = os_path_join a y -> x = y.
Proof.
  unfold os_path_join. destruct (decide (a = EmptyString)); [done|].
  destruct (ends_with_slash a); intros H.
  - by apply string_app_inj_r in H.
  - by do 2 apply string_app_inj_r in H.
Qed.

Lemma filepath_of_inj (output_dir : string) (a b : datetime) :
  valid a = true -> valid b = true -> 1000 <= year a -> 1000 <= year b ->
  filepath_of output_dir a = filepath_of output_dir b -> a = b.
Proof.
  intros Ha Hb Hya Hyb H. apply strftime_Ymd_inj; [done..|].
  by apply strftime_Ymd_json_inj, (os_path_join_inj output_dir).
Qed.

(** X1.  Every valid date from the year 1000 on has a request and a
    file of its own: two different dates never share a URL, nor a file
    name, nor a path in any output directory. *)
Theorem dates_have_own_names (a b : datetime) (output_dir : string) :
  valid a = true -> valid b = true -> 1000 <= year a -> 1000 <= year b ->
  a <> b ->
  api_url (strftime_Ymd a) <> api_url (strftime_Ymd b) /\
  strftime_Ymd_json a <> strftime_Ymd_json b /\
  os_path_join output_dir (strftime_Ymd_json a)
  <> os_path_join output_dir (strftime_Ymd_json b).
Proof.
  intros Ha Hb Hya Hyb Hne. split; [|split]; intros H; apply Hne.
  - apply strftime_Ymd_inj; [done..|].
    unfold api_url in H. by apply string_app_inj_r in H.
  - apply strftime_Ymd_inj; [done..|]. by apply strftime_Ymd_json_inj.
  - by apply (filepath_of_inj output_dir).
Qed.

Lemma dates_have_own_names_witness :
  api_url (strftime_Ymd (mk 1980 1 1)) <> api_url (strftime_Ymd (mk 1980 11 1)) /\
  strftime_Ymd_json (mk 1980 1 1) <> strftime_Ymd_json (mk 1980 11 1) /\
  os_path_join default_output_dir (strftime_Ymd_json (mk 1980 1 1))
  <> os_path_join default_output_dir (strftime_Ymd_json (mk 1980 11 1)).
Proof.
  apply (dates_have_own_names (mk 1980 1 1) (mk 1980 11 1) default_output_dir).
  - reflexivity.
  - reflexivity.
  - cbn [year]. lia.
  - cbn [year]. lia.
  - discriminate.
Defined.

(** X2.  Advancing any valid date that does not lie in December 9999
    returns a valid date in the next calendar month, strictly later
    than the one advanced.  Its day is the day of the original date,
    clipped to the length of the new month, and so never larger. *)
Theorem add_one_month_valid (dt : datetime) :
  valid dt = true -> ~ (year dt = MAXYEAR /\ month dt = 12) ->
  exists dt',
    add_one_month dt = Ok dt' /\
    valid dt' = true /\
    ltb dt dt' = true /\
    month_index dt' = month_index dt + 1 /\
    day dt' = Z.min (days_in_month (year dt') (month dt')) (day dt) /\
    day dt' <= day dt.
Proof.
  destruct dt as [y m d]. unfold valid, add_one_month, ltb, leb, month_index,
    MINYEAR, MAXYEAR. cbn [year month day].
  intros Hv Hlast.
  repeat (apply andb_prop in Hv as [Hv ?]).
  assert (1 <= y <= 9999 /\ 1 <= m <= 12 /\ 1 <= d) as (Hy & Hm & Hd) by lia.
  destruct (Z.gtb_spec (m + 1) 12) as [Hgt|Hle]; cbn beta iota.
  - assert (m = 12) as -> by lia.
    assert ((1 <=? y + 1) && (y + 1 <=? 9999) = true) as -> by lia.
    eexists. split; [reflexivity|]. cbn [year month day].
    pose proof (days_in_month_ge_1 (y + 1) (12 + 1 - 12)).
    repeat split; lia.
  - assert ((1 <=? y) && (y <=? 9999) = true) as -> by lia.
    eexists. split; [reflexivity|]. cbn [year month day].
    pose proof (days_in_month_ge_1 y (m + 1)).
    repeat split; lia.
Qed.

(** From 31 January to the last day of February, in a leap year and in
    a common year. *)
Lemma add_one_month_valid_witness :
  exists dt', add_one_month (mk 1992 1 31) = Ok dt' /\ valid dt' = true /\
    ltb (mk 1992 1 31) dt' = true /\ day dt' = 29.
Proof.
  destruct (add_one_month_valid (mk 1992 1 31)) as (dt' & Ha & Hv & Hl & _ & Hd & _).
  - reflexivity.
  - intros [H _]. discriminate H.
  - exists dt'. split; [exact Ha|]. split; [exact Hv|]. split; [exact Hl|].
    vm_compute in Ha. injection Ha as <-. reflexivity.
Defined.

Example add_one_month_clips : add_one_month (mk 1990 1 31) = Ok (mk 1990 2 28).
Proof. reflexivity. Qed.

(** X3.  The loop of [main] terminates for every start and end date:
    the cursor passes the end date after at most as many passes as
    there are months from the one to the other, both included.  More
    unrollings than that change nothing, and fewer never produce a
    different result, only none. *)
Theorem while_loop_terminates (cur en : datetime) (s f : Z) (e : env)
    (st : state) :
  1 <= month cur <= 12 -> 1 <= month en <= 12 ->
  exists r st',
    r <> Raise FuelExhausted /\
    (forall fuel, (loop_bound cur en <= fuel)%nat ->
       while_loop fuel cur en s f e st = (r, st')) /\
    (forall fuel, while_loop fuel cur en s f e st = (r, st') \/
                  fst (while_loop fuel cur en s f e st) = Raise FuelExhausted).
Proof.
  intros Hc He.
  destruct (while_loop (loop_bound cur en) cur en s f e st) as [r st'] eqn:Hw.
  exists r, st'.
  destruct (while_loop_fuel (loop_bound cur en) cur en s f e st
              (loop_bound cur en)) as [_ Hne]; [done..|].
  rewrite Hw in Hne. cbn [fst] in Hne.
  split; [done|]. split.
  - intros fuel Hf.
    destruct (while_loop_fuel (loop_bound cur en) cur en s f e st fuel)
      as [-> _]; done.
  - intros fuel.
    assert (fst (while_loop fuel cur en s f e st) = Raise FuelExhausted \/
            fst (while_loop fuel cur en s f e st) <> Raise FuelExhausted)
      as [|Hn]; [|by right|left].
    { destruct (while_loop fuel cur en s f e st) as [[v|[msg|msg|]] stf];
        cbn [fst]; (by left) || (by right). }
    destruct (Nat.le_gt_cases (loop_bound cur en) fuel) as [Hle|Hgt].
    + destruct (while_loop_fuel (loop_bound cur en) cur en s f e st fuel)
        as [-> _]; done.
    + rewrite <- Hw. symmetry. apply while_loop_mono; [done|lia].
Qed.

Lemma while_loop_terminates_witness :
  exists r st',
    r <> Raise FuelExhausted /\
    (forall fuel, (loop_bound start_date end_date <= fuel)%nat ->
       while_loop fuel start_date end_date 0 0 env_404 st0 = (r, st')).
Proof.
  destruct (while_loop_terminates start_date end_date 0 0 env_404 st0)
    as (r & st' & Hne & Hall & _).
  - vm_compute. split; discriminate.
  - vm_compute. split; discriminate.
  - exists r, st'. split; [exact Hne|exact Hall].
Defined.

(** ** The filesystem operations, whatever they return *)

Lemma os_makedirs_inv path e st r st' :
  os_makedirs path e st = (r, st') ->
  trace st' = trace st ++ [EMakedirs path] /\ files st' = files st /\
  ((r = Ok tt /\ dirs st' = {[path]} ∪ dirs st) \/
   (exists msg, r = Raise (OSError msg)) /\ dirs st' = dirs st).
Proof.
  unfold os_makedirs. intros H.
  repeat case_match; simplify_eq; cbn [log trace dirs files]; eauto 10.
Qed.

Lemma open_w_inv path e st r st' :
  open_w path e st = (r, st') ->
  trace st' = trace st ++ [EOpen path] /\ dirs st' = dirs st /\
  ((r = Ok tt /\ files st' = <[path := EmptyString]> (files st)) \/
   (exists msg, r = Raise (OSError msg)) /\ files st' = files st).
Proof.
  unfold open_w. intros H.
  repeat case_match; simplify_eq; cbn [log trace dirs files]; eauto 10.
Qed.

Lemma write_inv path content e st r st' :
  write path content e st = (r, st') ->
  trace st' = trace st ++ [EWrite path content] /\ dirs st' = dirs st /\
  ((r = Ok tt /\ files st' = <[path := content]> (files st)) \/
   (exists msg, r = Raise (OSError msg)) /\ files st' = files st).
Proof.
  unfold write. intros H.
  repeat case_match; simplify_eq; cbn [log trace dirs files]; eauto 10.
Qed.

Lemma state_eq (a b : state) :
  trace a = trace b -> dirs a = dirs b -> files a = files b -> a = b.
Proof. destruct a, b. cbn. by intros -> -> ->. Qed.

(** A save that returns has done all of its work; one that raises has
    at most made the directory and emptied the file. *)
Lemma save_parties_data_cases date data output_dir e st r st' :
  save_parties_data date data output_dir e st = (r, st') ->
  (r = Ok tt /\ st' = saved st output_dir date data) \/
  ((exists msg, r = Raise (OSError msg)) /\
   (dirs st' = dirs st \/ dirs st' = {[output_dir]} ∪ dirs st) /\
   (files st' = files st \/
    files st' = <[filepath_of output_dir date := EmptyString]> (files st))).
Proof.
  unfold save_parties_data. fold (filepath_of output_dir date).
  set (p := filepath_of output_dir date). intros H.
  apply bind_inv in H as [(u1 & st1 & H1 & H)|(x1 & H1 & ->)].
  - apply os_makedirs_inv in H1 as (T1 & F1 & [[_ D1]|[[? ?] _]]); [|done].
    apply bind_inv in H as [(u2 & st2 & H2 & H)|(x2 & H2 & ->)].
    + apply open_w_inv in H2 as (T2 & D2 & [[_ F2]|[[? ?] _]]); [|done].
      apply bind_inv in H as [(u3 & st3 & H3 & H)|(x3 & H3 & ->)].
      * apply write_inv in H3 as (T3 & D3 & [[_ F3]|[[? ?] _]]); [|done].
        unfold print in H. simplify_eq. left. split; [done|].
        apply state_eq; cbn [log saved trace dirs files]; fold p.
        -- rewrite T3, T2, T1. by repeat rewrite <- app_assoc.
        -- by rewrite D3, D2, D1.
        -- by rewrite F3, F2, F1, insert_insert_eq.
      * apply write_inv in H3 as (T3 & D3 & [[? _]|[Hx F3]]); [done|].
        right. split; [done|]. split; [right; by rewrite D3, D2, D1|].
        right. by rewrite F3, F2, F1.
    + apply open_w_inv in H2 as (T2 & D2 & [[? _]|[Hx F2]]); [done|].
      right. split; [done|]. split; [right; by rewrite D2, D1|].
      left. by rewrite F2, F1.
  - apply os_makedirs_inv in H1 as (T1 & F1 & [[? _]|[Hx D1]]); [done|].
    right. split; [done|]. split; [by left|by left].
Qed.

Lemma frame_refl (paths : list string) (st : state) : frame paths st st.
Proof. unfold frame. naive_solver. Qed.

Lemma frame_ext (paths : list string) (st st' : state) (evs : list event) :
  frame paths st st' -> frame paths st (ext st' evs).
Proof. done. Qed.

Lemma frame_trans (p1 p2 : list string) (a b c : state) :
  frame p1 a b -> frame p2 b c -> frame (p1 ++ p2) a c.
Proof.
  intros (A1 & A2 & A3 & A4) (B1 & B2 & B3 & B4). split; [|split; [|split]].
  - auto.
  - intros d Hd. destruct (B2 d Hd) as [|Hb]; [by left|auto].
  - intros q Hq. rewrite not_elem_of_app in Hq. destruct Hq.
    rewrite B3, A3; done.
  - auto.
Qed.

(** A save touches one path, and takes nothing away. *)
Lemma save_parties_data_frame date data e st r st' :
  save_parties_data date data default_output_dir e st = (r, st') ->
  frame [filepath_of default_output_dir date] st st'.
Proof.
  intros H. apply save_parties_data_cases in H as [[_ ->]|(_ & Hd & Hf)].
  - split; [|split; [|split]]; cbn [saved dirs files].
    + intros d Hd. by apply elem_of_union_r.
    + intros d [->%elem_of_singleton|Hd]%elem_of_union; [by left|by right].
    + intros q Hq%not_elem_of_cons. destruct Hq. by rewrite lookup_insert_ne.
    + intros q Hq.
      destruct (decide (filepath_of default_output_dir date = q)) as [<-|Hne].
      * by rewrite lookup_insert_eq.
      * by rewrite lookup_insert_ne.
  - split; [|split; [|split]].
    + intros d Hin. destruct Hd as [->| ->]; [done|by apply elem_of_union_r].
    + intros d Hin. destruct Hd as [Hd|Hd]; rewrite Hd in Hin; [by right|].
      apply elem_of_union in Hin as [->%elem_of_singleton|?]; [by left|by right].
    + intros q Hq%not_elem_of_cons. destruct Hq.
      destruct Hf as [->| ->]; [done|by rewrite lookup_insert_ne].
    + intros q Hq. destruct Hf as [->| ->]; [done|].
      destruct (decide (filepath_of default_output_dir date = q)) as [<-|Hne].
      * by rewrite lookup_insert_eq.
      * by rewrite lookup_insert_ne.
Qed.

(** So does a pass of the loop, however it ends. *)
Lemma loop_body_frame cur s f e st r st' :
  loop_body cur s f e st = (r, st') ->
  frame [filepath_of default_output_dir cur] st st'.
Proof.
  rewrite loop_body_eq. intros H.
  set (st1 := ext st _) in H.
  assert (exists st2, frame [filepath_of default_output_dir cur] st st2 /\
            exists evs, st' = ext st2 evs) as (st2 & Hf & evs & ->);
    [|by apply frame_ext].
  apply bind_inv in H as [([s1 f1] & st2 & H1 & H)|(x & H1 & ->)].
  - assert (frame [filepath_of default_output_dir cur] st st2) as Hf.
    { destruct (negb _).
      - apply bind_inv in H1 as [(? & st3 & H3 & H1)|(x & H3 & ?)]; [|done].
        unfold mret, M_ret, ret in H1. simplify_eq.
        apply save_parties_data_frame in H3. exact H3.
      - unfold mret, M_ret, ret in H1. simplify_eq.
        apply frame_ext, frame_refl. }
    exists st2. split; [done|]. cbn beta iota in H.
    apply bind_inv in H as [(next & st3 & H3 & H)|(x & H3 & ->)].
    + unfold lift in H3. simplify_eq. erewrite bind_Ok in H by reflexivity.
      unfold mret, M_ret, ret in H. simplify_eq. rewrite log_ext. by eexists.
    + unfold lift in H3. simplify_eq. exists []. by rewrite ext_nil.
  - destruct (negb _); [|done].
    apply bind_inv in H1 as [(? & st3 & H3 & H1)|(x' & H3 & ?)]; [done|].
    simplify_eq. exists st'.
    split; [apply save_parties_data_frame in H3; exact H3|].
    exists []. by rewrite ext_nil.
Qed.

(** A pass that returns, spelled out. *)
Lemma loop_body_Ok_cases cur s f e st next s' f' st' :
  loop_body cur s f e st = (Ok (next, s', f'), st') ->
  let o := http_get e (now st) (api_url (strftime_Ymd cur)) in
  let st1 := ext st (get_event cur :: fetch_report cur o) in
  add_one_month cur = Ok next /\
  ((is_None (fetch_value o) = true /\ s' = s /\ f' = f + 1 /\
    st' = ext st1 [ESleep 200]) \/
   (is_None (fetch_value o) = false /\ s' = s + 1 /\ f' = f /\
    st' = ext (saved st1 default_output_dir cur (fetch_value o)) [ESleep 200])).
Proof.
  rewrite loop_body_eq. intros H. cbv zeta.
  apply bind_inv in H as [([s1 f1] & st2 & H1 & H)|(x & _ & ?)]; [|done].
  cbn beta iota in H.
  apply bind_inv in H as [(nx & st3 & H3 & H)|(x & _ & ?)]; [|done].
  unfold lift in H3. simplify_eq. erewrite bind_Ok in H by reflexivity.
  unfold mret, M_ret, ret in H. simplify_eq. rewrite log_ext.
  split; [done|].
  destruct (is_None _) eqn:Hn; cbn [negb] in H1.
  - unfold mret, M_ret, ret in H1. simplify_eq. by left.
  - apply bind_inv in H1 as [(? & st4 & H4 & H1)|(x & _ & ?)]; [|done].
    unfold mret, M_ret, ret in H1. simplify_eq.
    apply save_parties_data_cases in H4 as [[_ ->]|[[? ?] _]]; [|done].
    by right.
Qed.

(** ** An invariant rule for the loop *)

Lemma month_seq_snoc (d : datetime) (n : nat) :
  month_seq d (S n) = month_seq d n ++ [nth_month d (Z.of_nat n)].
Proof. unfold month_seq. by rewrite seq_S, map_app. Qed.


Section LoopInvariant.
Variables (e : env) (start en : datetime).
Variable R : nat -> Z -> Z -> state -> Prop.
Variable Q : nat -> state -> Prop.
Hypothesis Hstart : first_of_month start.
Hypothesis Hme : 1 <= month en <= 12.
Hypothesis Hde : 1 <= day en.
Hypothesis step_ok :
  forall i s f st next s' f' st',
    (i < loop_bound start en)%nat -> R i s f st ->
    loop_body (nth_month start (Z.of_nat i)) s f e st = (Ok (next, s', f'), st') ->
    R (S i) s' f' st'.
Hypothesis step_raise :
  forall i s f st x st',
    (i < loop_bound start en)%nat -> R i s f st ->
    loop_body (nth_month start (Z.of_nat i)) s f e st = (Raise x, st') ->
    Q i st'.

Lemma while_loop_invariant_from (n : nat) :
  forall i fuel s f st r st',
    (i + n)%nat = loop_bound start en -> (n <= fuel)%nat -> R i s f st ->
    while_loop fuel (nth_month start (Z.of_nat i)) en s f e st = (r, st') ->
    match r with
    | Ok (s', f') => R (loop_bound start en) s' f' st'
    | Raise x => exists j, (j < loop_bound start en)%nat /\ Q j st'
    end.
Proof.
  destruct Hstart as (Hy & Hm & Hd).
  induction n as [|n IH]; intros i fuel s f st r st' Hn Hf HR H;
    pose proof (nth_month_index start (Z.of_nat i)) as Hx;
    pose proof (nth_month_month start (Z.of_nat i)) as Hmm.
  - assert (leb (nth_month start (Z.of_nat i)) en = false) as Hl.
    { apply leb_false_month_index; [done..|]. unfold loop_bound in Hn. lia. }
    rewrite while_loop_done in H by done. simplify_eq.
    by rewrite <- Hn, Nat.add_0_r.
  - assert (leb (nth_month start (Z.of_nat i)) en = true) as Hl.
    { apply leb_first_of_month; [done..|]. unfold loop_bound in Hn. lia. }
    destruct fuel as [|fuel]; [lia|].
    rewrite while_loop_step in H by done.
    apply bind_inv in H as [([[next s1] f1] & st1 & Hb & H)|(x & Hb & ->)].
    + cbn beta iota in H.
      pose proof Hb as Hb'.
      apply loop_body_inv in Hb' as (_ & _ & _ & Ha & _).
      apply add_one_month_Ok in Ha as (_ & _ & Hnext & _); [|done].
      rewrite Hnext, nth_month_nth_month in H by done.
      replace (Z.of_nat i + 1) with (Z.of_nat (S i)) in H by lia.
      apply (IH (S i) fuel s1 f1 st1); [lia|lia| |exact H].
      eapply step_ok; [lia|exact HR|exact Hb].
    + exists i. split; [lia|]. eapply step_raise; [lia|exact HR|exact Hb].
Qed.

Lemma while_loop_invariant fuel s f st r st' :
  (loop_bound start en <= fuel)%nat -> R 0 s f st ->
  while_loop fuel start en s f e st = (r, st') ->
  match r with
  | Ok (s', f') => R (loop_bound start en) s' f' st'
  | Raise x => exists j, (j < loop_bound start en)%nat /\ Q j st'
  end.
Proof.
  intros Hf HR H.
  apply (while_loop_invariant_from (loop_bound start en) 0 fuel s f st);
    [done..|].
  change (Z.of_nat 0) with 0. rewrite nth_month_0; [done|apply Hstart..].
Qed.
End LoopInvariant.

(** ** Ranges other than the configured one *)



(** X5.  When the end date lies before the start date the loop body
    never runs: the run sends no request, touches no file and reports
    0 successes and 0 failures, under a header whose month count is
    then zero or negative. *)
Theorem run_empty_range (start en : datetime) (e : env) (st : state) :
  leb start en = false ->
  run start en e st = (Ok tt, ext st (header start en ++ footer 0 0)) /\
  fetched (header start en ++ footer 0 0) = [] /\
  last (console (header start en ++ footer 0 0))
  = Some "Completed! Total successful: 0, Total failed: 0" /\
  (first_of_month start -> first_of_month en -> total_months start en <= 0).
Proof.
  intros Hl. split; [|split; [done|split; [done|]]].
  - rewrite run_eq, while_loop_done by done. by rewrite ext_ext.
  - intros (_ & Hms & Hds) (_ & Hme & Hde).
    assert (~ month_index start <= month_index en) as Hn.
    { intros H. apply (leb_first_of_month start en) in H; [congruence|done..|lia]. }
    unfold total_months, month_index in *. lia.
Qed.

Lemma run_empty_range_witness :
  run end_date start_date env_sample st0
  = (Ok tt, ext st0 (header end_date start_date ++ footer 0 0)) /\
  console (header end_date start_date) !! 1%nat
  = Some "Total months to process: -119".
Proof.
  split; [|reflexivity].
  apply (run_empty_range end_date start_date env_sample st0). reflexivity.
Defined.

(** ** What a run of [main] does to the disk *)

Lemma frame_mono (p1 p2 : list string) (a b : state) :
  (forall q, q ∈ p1 -> q ∈ p2) -> frame p1 a b -> frame p2 a b.
Proof.
  intros Hsub (A1 & A2 & A3 & A4). split; [done|]. split; [done|].
  split; [|done]. intros q Hq. apply A3. intros Hin. by apply Hq, Hsub.
Qed.

Lemma month_seq_elem (d x : datetime) (k n : nat) :
  (k <= n)%nat -> x ∈ month_seq d k -> x ∈ month_seq d n.
Proof.
  intros Hk Hx. rewrite (month_seq_take d k n) in Hx by done.
  eapply elem_of_sublist; [exact Hx|apply sublist_take].
Qed.

(** X6.  Whatever the service answers and whatever fails, a run of
    [main] leaves alone every file other than the files
    [parties_data/YYYY-MM-DD.json] of its 121 months, removes no file
    and no directory, and creates no directory other than
    [parties_data]. *)
Theorem main_touches_only_its_files (e : env) (st : state) (r : result unit)
    (st' : state) :
  main e st = (r, st') ->
  (forall q, q ∉ map (filepath_of default_output_dir) configured_months ->
     files st' !! q = files st !! q) /\
  (forall q, is_Some (files st !! q) -> is_Some (files st' !! q)) /\
  (forall d, d ∈ dirs st -> d ∈ dirs st') /\
  (forall d, d ∈ dirs st' -> d = "parties_data" \/ d ∈ dirs st).
Proof.
  intros H.
  assert (frame (map (filepath_of default_output_dir) configured_months) st st')
    as (F1 & F2 & F3 & F4); [|done].
  destruct main_constants as (Hs & (_ & Hme & Hde) & Hb & _).
  unfold main in H. rewrite run_eq in H.
  destruct (while_loop _ _ _ _ _ _ _) as [r1 st1] eqn:Hw.
  pose (R := fun (i : nat) (_ _ : Z) (s_ : state) =>
    frame (map (filepath_of default_output_dir) (month_seq start_date i)) st s_).
  pose (Q := fun (i : nat) (s_ : state) =>
    frame (map (filepath_of default_output_dir) (month_seq start_date (S i))) st s_).
  assert (forall i s f s_ rr s_', R i s f s_ ->
            loop_body (nth_month start_date (Z.of_nat i)) s f e s_ = (rr, s_') ->
            Q i s_') as Hstep.
  { intros i s f s_ rr s_' HR Hbody. unfold Q.
    rewrite month_seq_snoc, map_app. eapply frame_trans; [exact HR|].
    apply loop_body_frame in Hbody. exact Hbody. }
  apply (while_loop_invariant e start_date end_date R Q) in Hw;
    [| done | lia | lia | | | done | apply frame_ext, frame_refl ].
  - destruct r1 as [[s f]|x]; simplify_eq.
    + rewrite Hb in Hw. apply frame_ext. exact Hw.
    + destruct Hw as (j & Hj & Hq). eapply frame_mono; [|exact Hq].
      intros q (d & -> & Hd)%list_elem_of_fmap. apply list_elem_of_fmap.
      exists d. split; [done|]. eapply month_seq_elem; [|exact Hd]. lia.
  - intros i s f s_ next s' f' s_' _ HR Hbody. eapply (Hstep i); eassumption.
  - intros i s f s_ x s_' _ HR Hbody. eapply (Hstep i); eassumption.
Qed.

(** On a disk that fills up, a file of the user outside the tree is as
    it was after the run. *)
Lemma main_touches_only_its_files_witness :
  files (snd (main env_disk_full st_notes)) !! "notes.txt" = Some "keep".
Proof.
  destruct (main_touches_only_its_files env_disk_full st_notes
              (fst (main env_disk_full st_notes))
              (snd (main env_disk_full st_notes)))
    as (H & _).
  - apply surjective_pairing.
  - rewrite H; [reflexivity|].
    apply (bool_decide_unpack _). vm_compute. reflexivity.
Defined.







(** ** Pacing *)

Lemma paced_app (ready : bool) (a b : list event) :
  paced ready (a ++ b) = paced ready a && paced (ready_after ready a) b.
Proof.
  revert ready. induction a as [|ev a IH]; intros ready; [done|].
  destruct ev; cbn [app paced ready_after]; rewrite ?IH; try done.
  by rewrite andb_assoc.
Qed.

Lemma ready_after_app (ready : bool) (a b : list event) :
  ready_after ready (a ++ b) = ready_after (ready_after ready a) b.
Proof.
  revert ready. induction a as [|ev a IH]; intros ready; [done|].
  destruct ev; cbn [app ready_after]; by rewrite ?IH.
Qed.

Lemma paced_quiet (ready : bool) (evs : list event) :
  fetched evs = [] -> paced ready evs = true.
Proof.
  revert ready. induction evs as [|ev evs IH]; intros ready H; [done|].
  destruct ev; cbn [paced]; try (by apply IH). done.
Qed.

Lemma ready_after_quiet (evs : list event) :
  fetched evs = [] -> ready_after true evs = true.
Proof.
  induction evs as [|ev evs IH]; intros Hf; [done|].
  destruct ev; cbn [ready_after orb]; try (by apply IH). done.
Qed.

Lemma ready_after_sleep (ready : bool) (evs : list event) :
  fetched evs = [] -> sleeps evs = [200] -> ready_after ready evs = true.
Proof.
  revert ready. induction evs as [|ev evs IH]; intros ready Hf Hs; [done|].
  destruct ev as [u t|l|p|p|p c|ms]; cbn [ready_after].
  - done.
  - by apply IH.
  - by apply IH.
  - by apply IH.
  - by apply IH.
  - cbn in Hs. injection Hs as -> _. change (200 <=? 200) with true.
    rewrite orb_true_r. by apply ready_after_quiet.
Qed.

(** X8.  In every run of [main], however it ends, each request but the
    first is sent only after a sleep of 200 ms that followed the request
    before it: no two requests go out back to back. *)
Theorem main_is_paced (e : env) (st : state) (r : result unit) (st' : state) :
  main e st = (r, st') ->
  exists evs, trace st' = trace st ++ evs /\ paced true evs = true.
Proof.
  intros H.
  destruct main_constants as (Hs & (_ & Hme & Hde) & Hb & _).
  unfold main in H. rewrite run_eq in H.
  destruct (while_loop _ _ _ _ _ _ _) as [r1 st1] eqn:Hw.
  pose (R := fun (_ : nat) (_ _ : Z) (s_ : state) =>
    exists evs, trace s_ = trace st ++ evs /\ paced true evs = true /\
      ready_after true evs = true).
  pose (Q := fun (_ : nat) (s_ : state) =>
    exists evs, trace s_ = trace st ++ evs /\ paced true evs = true).
  apply (while_loop_invariant e start_date end_date R Q) in Hw;
    [| done | lia | lia | | | done | ].
  - destruct r1 as [[s f]|x]; simplify_eq.
    + destruct Hw as (evs & T & P & Rd). exists (evs ++ footer s f).
      cbn [ext trace]. rewrite T, paced_app, P. by rewrite <- app_assoc.
    + destruct Hw as (j & _ & evs & T & P). by exists evs.
  - intros i s f s_ next s' f' s_' _ (evs & T & P & Rd) Hbody.
    apply loop_body_inv in Hbody as (evs1 & T1 & F1 & _ & S1 & _).
    exists (evs ++ get_event (nth_month start_date (Z.of_nat i)) :: evs1).
    split; [by rewrite T1, T, <- app_assoc|].
    rewrite paced_app, ready_after_app, P, Rd. cbn [paced ready_after andb].
    split; [by apply paced_quiet|by apply ready_after_sleep].
  - intros i s f s_ x s_' _ (evs & T & P & Rd) Hbody.
    apply loop_body_inv in Hbody as (evs1 & T1 & F1 & _).
    exists (evs ++ get_event (nth_month start_date (Z.of_nat i)) :: evs1).
    split; [by rewrite T1, T, <- app_assoc|].
    rewrite paced_app, P, Rd. cbn [paced andb]. by apply paced_quiet.
  - exists (header start_date end_date). by cbn.
Qed.

Lemma main_is_paced_witness :
  exists evs, trace (snd (main env_sample st0)) = trace st0 ++ evs /\
    paced true evs = true.
Proof.
  apply (main_is_paced env_sample st0 (fst (main env_sample st0))).
  apply surjective_pairing.
Defined.

(** ** Failures that leave no line on the console *)

(** X9.  A fetch answered with status 200 and the JSON body [null] is
    counted as a failure without any line on the console.  Against a
    service that answers so for every date, [main] sends its 121
    requests, writes nothing, and prints the header and the summary
    only: 0 successes, 121 failures, and no word about any of them. *)
Theorem null_bodies_fail_silently (e : env) (st : state) :
  (forall t url, http_get e t url = Response 200 (Decoded JNull)) ->
  exists st' evs,
    main e st = (Ok tt, st') /\ trace st' = trace st ++ evs /\
    length (fetched evs) = 121%nat /\
    writes evs = [] /\ files st' = files st /\
    console evs =
      ["Fetching State of the Parties data from 1980-01-01 to 1990-01-01";
       "Total months to process: 121";
       dashes 60;
       dashes 60;
       "Completed! Total successful: 0, Total failed: 121"].
Proof.
  intros Hh.
  destruct main_constants as (Hs & (Hye & Hme & Hde) & Hb & _).
  pose proof Hs as (Hys & Hms & _).
  assert (nothing_fetched e) as Hnf by (intros t url; by rewrite Hh).
  destruct (while_loop_nothing_fetched 121 start_date end_date 0 0 e
              (ext st (header start_date end_date)) 121)
    as (s & f & evsx & Hw & _); [done..|by rewrite Hb|done|].
  assert (main e st = (Ok tt, ext (ext (ext st (header start_date end_date)) evsx)
                                  (footer s f))) as Hmain.
  { unfold main. by rewrite run_eq, Hb, Hw. }
  pose proof Hmain as H'.
  apply main_inv in H' as (k & evs0 & _ & F0 & s0 & f0 & -> & _ & _ & _ & _ & T0).
  pose (R := fun (i : nat) (s f : Z) (s_ : state) =>
    s = 0 /\ f = Z.of_nat i /\ files s_ = files st /\
    exists evs, trace s_ = trace st ++ header start_date end_date ++ evs /\
      console evs = [] /\ writes evs = []).
  rewrite <- Hb in Hw.
  apply (while_loop_invariant e start_date end_date R (fun _ _ => True)) in Hw;
    [| done | lia | lia | | done | done | ].
  - rewrite Hb in Hw. destruct Hw as (-> & -> & Hfs & evs & T & C & W).
    change (Z.of_nat 121) with 121 in *.
    eexists _, (header start_date end_date ++ evs ++ footer 0 121).
    split; [exact Hmain|].
    split; [cbn [ext trace] in *; rewrite T; by rewrite <- !app_assoc|].
    cbn [ext trace] in T0, T. rewrite T in T0.
    repeat rewrite <- app_assoc in T0. do 2 apply app_inv_head in T0.
    split.
    { apply (f_equal fetched) in T0. rewrite !fetched_app in T0.
      change (fetched (footer _ _)) with (@nil (string * Z)) in T0.
      rewrite !app_nil_r in T0.
      rewrite !fetched_app. change (fetched (header _ _)) with (@nil (string * Z)).
      change (fetched (footer _ _)) with (@nil (string * Z)).
      rewrite app_nil_r, app_nil_l, T0, F0.
      by rewrite length_map, month_seq_length. }
    split.
    { unfold writes in *. rewrite !omap_app, W. done. }
    split; [done|].
    rewrite !console_app, C. reflexivity.
  - intros i s1 f1 s_ next s' f' s_' _ (-> & -> & Hfs & evs & T & C & W) Hbody.
    apply loop_body_Ok_cases in Hbody as (_ & Hcases). rewrite Hh in Hcases.
    cbn [fetch_value fetch_report] in Hcases.
    change (200 =? 200) with true in Hcases. cbn iota in Hcases.
    destruct Hcases as [(_ & -> & -> & ->)|(? & _)]; [|done].
    split; [done|]. split; [lia|]. split; [done|].
    exists (evs ++ [get_event (nth_month start_date (Z.of_nat i)); ESleep 200]).
    cbn [ext trace]. rewrite T.
    split; [by repeat rewrite <- app_assoc|].
    unfold writes in *. rewrite console_app, omap_app, C, W. done.
  - split; [done|]. split; [done|]. split; [done|].
    exists []. by rewrite app_nil_r.
Qed.

Lemma null_bodies_fail_silently_witness :
  exists st' evs,
    main env_null st0 = (Ok tt, st') /\ trace st' = trace st0 ++ evs /\
    length (fetched evs) = 121%nat /\
    last (console evs) = Some "Completed! Total successful: 0, Total failed: 121".
Proof.
  destruct (null_bodies_fail_silently env_null st0)
    as (st' & evs & H & T & F & _ & _ & C).
  - intros t url. reflexivity.
  - exists st', evs. split; [exact H|]. split; [exact T|]. split; [exact F|].
    rewrite C. reflexivity.
Defined.

(** ** The success count *)

Lemma writes_app (a b : list event) : writes (a ++ b) = writes a ++ writes b.
Proof. apply omap_app. Qed.

Lemma fetch_report_no_writes (date : datetime) (o : http_outcome) :
  writes (fetch_report date o) = [].
Proof. unfold fetch_report. by repeat case_match. Qed.

(** X10.  In a run of [main] that returns, the success count of the
    summary is the number of files written during the run; the files
    written are files of months of the range, in the order of the
    months, and none is written twice. *)
Theorem main_success_count_is_writes (e : env) (st st' : state) :
  main e st = (Ok tt, st') ->
  exists s f evs,
    trace st' = trace st ++ evs /\
    last evs = Some (EPrint (completed_line s f)) /\
    Z.of_nat (length (writes evs)) = s /\
    map fst (writes evs)
      `sublist_of` map (filepath_of default_output_dir) configured_months /\
    NoDup (map fst (writes evs)).
Proof.
  intros H.
  destruct main_constants as (Hs & (_ & Hme & Hde) & Hb & _).
  unfold main in H. rewrite run_eq in H.
  destruct (while_loop _ _ _ _ _ _ _) as [r1 st1] eqn:Hw.
  pose (R := fun (i : nat) (s _ : Z) (s_ : state) =>
    exists evs, trace s_ = trace st ++ evs /\
      Z.of_nat (length (writes evs)) = s /\
      map fst (writes evs)
        `sublist_of` map (filepath_of default_output_dir) (month_seq start_date i)).
  apply (while_loop_invariant e start_date end_date R (fun _ _ => True)) in Hw;
    [| done | lia | lia | | done | done | ].
  - destruct r1 as [[s f]|x]; simplify_eq. rewrite Hb in Hw.
    destruct Hw as (evs & T & Hlen & Hsub).
    exists s, f, (evs ++ footer s f).
    split; [cbn [ext trace]; rewrite T; by rewrite <- app_assoc|].
    split.
    { unfold footer.
      change [EPrint (dashes 60); EPrint (completed_line s f)]
        with ([EPrint (dashes 60)] ++ [EPrint (completed_line s f)]).
      rewrite app_assoc. apply last_snoc. }
    rewrite writes_app. change (writes (footer s f)) with (@nil (string * string)).
    rewrite app_nil_r. split; [done|]. split; [done|].
    eapply sublist_NoDup; [|exact Hsub].
    assert (NoDup (filepath_of default_output_dir <$> configured_months)) as Hnd
      by (apply (bool_decide_unpack _); by vm_compute).
    exact Hnd.
  - intros i s f s_ next s' f' s_' _ (evs & T & Hlen & Hsub) Hbody.
    apply loop_body_Ok_cases in Hbody as (_ & Hcases).
    unfold R. rewrite month_seq_snoc, map_app. cbn [map].
    destruct Hcases as [(_ & -> & -> & ->)|(_ & -> & -> & ->)].
    + eexists (evs ++ (get_event _ :: fetch_report _ _) ++ [ESleep 200]).
      cbn [ext trace]. rewrite T.
      split; [by repeat rewrite <- app_assoc|].
      rewrite !writes_app.
      change (get_event ?d :: ?r) with ([get_event d] ++ r).
      rewrite writes_app, fetch_report_no_writes. cbn [writes omap app].
      rewrite !app_nil_r.
      split; [done|]. by apply sublist_inserts_r.
    + eexists (evs ++ (get_event _ :: fetch_report _ _)
                 ++ [EMakedirs default_output_dir; EOpen _; EWrite _ _;
                     EPrint _] ++ [ESleep 200]).
      cbn [ext saved trace]. rewrite T.
      split; [by repeat rewrite <- app_assoc|].
      rewrite !writes_app.
      change (get_event ?d :: ?r) with ([get_event d] ++ r).
      rewrite writes_app, fetch_report_no_writes.
      change (writes [get_event ?d]) with (@nil (string * string)).
      change (writes [ESleep 200]) with (@nil (string * string)).
      change (writes [EMakedirs ?a; EOpen ?b; EWrite ?p ?c; EPrint ?l])
        with [(p, c)].
      rewrite length_app, map_app. cbn [length map fst app].
      split; [lia|]. by apply sublist_app.
  - exists (header start_date end_date). split; [done|]. split; [done|].
    apply sublist_nil_l.
Qed.

(** With the sample snapshot for every month, on an empty disk. *)
Lemma main_success_count_is_writes_witness :
  exists st' s f evs,
    main env_sample st0 = (Ok tt, st') /\
    trace st' = trace st0 ++ evs /\
    last evs = Some (EPrint (completed_line s f)) /\
    Z.of_nat (length (writes evs)) = s.
Proof.
  destruct (main_completes env_sample st0) as [st' Hmain].
  - intros t op. reflexivity.
  - split; [discriminate|]. split; [reflexivity|].
    intros d. apply not_elem_of_empty.
  - destruct (main_success_count_is_writes env_sample st0 st' Hmain)
      as (s & f & evs & T & L & W & _).
    exists st', s, f, evs.
    split; [exact Hmain|]. split; [exact T|]. split; [exact L|exact W].
Defined.
